(** * csplm: layered-image project editor

    A shallow embedding of the project/export pipeline of the editor:
    the layer list handlers of the page component ([ImageEditor]), the
    project loader ([ProjectLoader]), and the export paths of
    [TaskManager] and [ExportManager].

    Conventions.
    - JavaScript arrays are lists; [Array.prototype.filter], [map] with
      index, [findIndex] and [splice] are stdpp's [filter], [imap],
      [list_find] and [delete]/[take]/[drop].
    - A [Record<string, boolean>] used as a dictionary is a
      [gmap string bool] holding its own properties.  Reading a key that
      the object does not have but inherits from [Object.prototype] is
      spelled out in module [Js]; the handlers outside [Js] are the code
      at its declared types, on layers whose ids name nothing inherited.
    - Integer-valued numbers (zIndex, pixel sizes) are [Z]; numbers read
      from JSON or obtained by division are exact rationals [Q].  The
      two agree with the numbers of the source where its arithmetic is
      exact, as it is on safe integers.
    - Image decoding is event driven: the browser fires exactly one of
      [onload] / [onerror] per image, in an order the program does not
      control.  An export run is therefore a fold of the handlers over a
      schedule of image events. *)

From Stdlib Require Import ZArith QArith Qminmax Qabs Lia Lqa.
From stdpp Require Import base strings gmap list pretty.

Open Scope Z_scope.
Set Warnings "-register-all".

(** ** Runtime and on-disk data model *)

(** [interface Layer] (runtime layer, camelCase fields). *)
Module Layer.
Record t := mk {
  id : string;
  name : string;
  src : string;
  file_path : string;
  width : Z;
  height : Z;
  isVisible : bool;
  zIndex : Z
}.

(** [{ ...layer, isVisible: v }] *)
Definition with_isVisible (v : bool) (l : t) : t :=
  mk (id l) (name l) (src l) (file_path l) (width l) (height l) v (zIndex l).

(** [{ ...layer, zIndex: z }] *)
Definition with_zIndex (z : Z) (l : t) : t :=
  mk (id l) (name l) (src l) (file_path l) (width l) (height l) (isVisible l) z.
End Layer.

(** [interface ProjectLayer] (on-disk layer, snake_case fields). *)
Module ProjectLayer.
Record t := mk {
  id : string;
  name : string;
  file_path : string;
  width : Z;
  height : Z;
  is_visible : bool;
  z_index : Z
}.
End ProjectLayer.

(** A preset as the page holds it.  [exportProject] takes [any[]] and reads
    both spellings of each field, so both are optional here.  A [Date] is
    its epoch time. *)
Module Preset.
Record t := mk {
  id : string;
  name : string;
  layerStates : option (gmap string bool);
  layer_states : option (gmap string bool);
  createdAt : option Z;
  created_at : option string
}.
End Preset.

(** [interface LayerPreset] of the project file.  [layer_states] is
    optional because [exportProject] copies [undefined] when the preset
    has neither spelling. *)
Module LayerPreset.
Record t := mk {
  id : string;
  name : string;
  layer_states : option (gmap string bool);
  created_at : string
}.
End LayerPreset.

(** [interface ProjectCanvas] and [interface ProjectFile]. *)
Module ProjectFile.
Record canvas_t := mkCanvas { width : Z; height : Z }.
Record t := mk {
  version : string;
  canvas : canvas_t;
  layers : list ProjectLayer.t;
  presets : list LayerPreset.t
}.
End ProjectFile.

(** ** Array helpers *)

Section ArrayHelpers.
Context {A : Type}.

(** [arr.findIndex(p)]: the first index whose element satisfies [p];
    [None] stands for JavaScript's [-1]. *)
Definition findIndex (p : A → bool) (arr : list A) : option nat :=
  fst <$> list_find (λ x, p x = true) arr.

(** [arr.splice(i, 0, x)]: insert [x] before position [i]; an index past
    the end is clamped to the length, so [x] is appended. *)
Definition splice_insert (i : nat) (x : A) (arr : list A) : list A :=
  take i arr ++ x :: drop i arr.

(** [arr.sort(cmp)]: the stable sort required by ECMAScript 2019.  [x]
    goes before [y] when [cmp x y <= 0]; an element is inserted in front
    of the already sorted tail, so equal keys keep their input order. *)
Fixpoint sort_insert (cmp : A → A → Z) (x : A) (sorted : list A) : list A :=
  match sorted with
  | [] => [x]
  | y :: rest =>
      if cmp x y <=? 0 then x :: y :: rest
      else y :: sort_insert cmp x rest
  end.

Fixpoint sort (cmp : A → A → Z) (arr : list A) : list A :=
  match arr with
  | [] => []
  | x :: rest => sort_insert cmp x (sort cmp rest)
  end.
End ArrayHelpers.

(** [a || b] on strings: the empty string is falsy. *)
Definition str_or (a b : string) : string :=
  if bool_decide (a = "") then b else a.

(** ** Page component: layer list handlers *)

(** The [ImageEditor] state that the handlers and the task manager read. *)
Module Editor.
Record state := mk {
  layers : list Layer.t;
  presets : list Preset.t;
  canvasWidth : Z;
  canvasHeight : Z;
  selectedLayerId : option string
}.
End Editor.

(** [handleApplyPreset]:
    [prev.map(layer => ({...layer, isVisible: layerStates[layer.id] ?? layer.isVisible}))],
    at the declared type of [isVisible]: the read finds own entries.
    [Js.handleApplyPreset] below reads as the engine does. *)
Definition handleApplyPreset (layerStates : gmap string bool)
    (prev : list Layer.t) : list Layer.t :=
  (λ layer,
     Layer.with_isVisible
       (default (Layer.isVisible layer) (layerStates !! Layer.id layer)) layer)
  <$> prev.

(** [handleReorderLayers]: locate both layers, move the dragged one to the
    target's index, then renumber [zIndex] by position.  The [None] branch
    of the inner match stands for a [splice] that removed nothing; it is
    unreachable because [draggedIndex] comes from [findIndex]. *)
Definition handleReorderLayers (draggedId targetId : string)
    (prev : list Layer.t) : list Layer.t :=
  match findIndex (λ layer, bool_decide (Layer.id layer = draggedId)) prev,
        findIndex (λ layer, bool_decide (Layer.id layer = targetId)) prev with
  | Some draggedIndex, Some targetIndex =>
      match prev !! draggedIndex with
      | Some draggedLayer =>
          let newLayers := splice_insert targetIndex draggedLayer
                             (delete draggedIndex prev) in
          imap (λ index layer, Layer.with_zIndex (Z.of_nat index) layer) newLayers
      | None => prev
      end
  | _, _ => prev
  end.

(** [handleDeleteLayer]: refuse when at most one layer is left, otherwise
    drop every layer carrying [id] and repair the selection. *)
Definition handleDeleteLayer (id : string) (st : Editor.state) : Editor.state :=
  if (length (Editor.layers st) <=? 1)%nat then st
  else
    let remainingLayers :=
      filter (λ layer, Layer.id layer ≠ id) (Editor.layers st) in
    Editor.mk remainingLayers (Editor.presets st)
      (Editor.canvasWidth st) (Editor.canvasHeight st)
      (if bool_decide (Editor.selectedLayerId st = Some id)
       then Layer.id <$> head remainingLayers
       else Editor.selectedLayerId st).

(** ** Project loader: validation *)

(** The value [JSON.parse] returns. *)
Inductive json :=
| JNull
| JBool (b : bool)
| JNum (n : Q)
| JStr (s : string)
| JArr (items : list json)
| JObj (members : list (string * json)).

(** A JavaScript value read from a parsed document: [None] is [undefined]. *)
Definition jsval := option json.

(** What a statement can throw inside the [try] block of
    [loadProjectFile]. *)
Inductive Thrown :=
| Error (message : string)
| TypeError (reading : string)
| SyntaxError.

(** Completion of a piece of code that may throw, with the usual bind. *)
Inductive Completion (A : Type) :=
| Normal (a : A)
| Throw (e : Thrown).
Arguments Normal {A} a.
Arguments Throw {A} e.

#[global] Instance Completion_ret : MRet Completion := @Normal.
#[global] Instance Completion_bind : MBind Completion :=
  λ A B f c, match c with Normal a => f a | Throw e => Throw e end.

(** [if (c) throw e] *)
Definition throw_if (c : bool) (e : Thrown) : Completion unit :=
  if c then Throw e else Normal tt.

(** The last binding of a key is the one [JSON.parse] keeps. *)
Fixpoint own_property (key : string) (members : list (string * json)) : jsval :=
  match members with
  | [] => None
  | (k, v) :: rest =>
      match own_property key rest with
      | Some later => Some later
      | None => if bool_decide (k = key) then Some v else None
      end
  end.

(** [v.key]: reading a property of [null] or [undefined] throws a
    TypeError; a primitive or an array has none of the keys read here. *)
Definition member (key : string) (v : jsval) : Completion jsval :=
  match v with
  | None | Some JNull => Throw (TypeError key)
  | Some (JObj members) => Normal (own_property key members)
  | Some _ => Normal None
  end.

(** ToBoolean: [undefined], [null], [false], [0] and the empty string are
    falsy. *)
Definition truthy (v : jsval) : bool :=
  match v with
  | None | Some JNull => false
  | Some (JBool b) => b
  | Some (JNum n) => negb (Qeq_bool n 0)
  | Some (JStr s) => negb (bool_decide (s = ""))
  | Some (JArr _) | Some (JObj _) => true
  end.

(** [Array.isArray(v)] *)
Definition isArray (v : jsval) : bool :=
  match v with Some (JArr _) => true | _ => false end.

(** [typeof v === 'number'], returning the number. *)
Definition as_number (v : jsval) : option Q :=
  match v with Some (JNum n) => Some n | _ => None end.

(** The body of the [try] block of [loadProjectFile] after [JSON.parse].
    The two [typeof] tests of the canvas check bind the numbers that the
    later range checks read again from the same, unmodified, object. *)
Definition validate (project : json) : Completion json :=
  version ← member "version" (Some project);
  _ ← throw_if (negb (truthy version)) (Error "Missing version field");
  canvas ← member "canvas" (Some project);
  dims ←
    (if negb (truthy canvas)
     then Throw (Error "Missing or invalid canvas dimensions")
     else
       w ← member "width" canvas;
       match as_number w with
       | None => Throw (Error "Missing or invalid canvas dimensions")
       | Some width =>
           h ← member "height" canvas;
           match as_number h with
           | None => Throw (Error "Missing or invalid canvas dimensions")
           | Some height => Normal (width, height)
           end
       end);
  layers ← member "layers" (Some project);
  _ ← throw_if (negb (isArray layers)) (Error "Missing or invalid layers array");
  presets ← member "presets" (Some project);
  _ ← throw_if (negb (isArray presets)) (Error "Missing or invalid presets array");
  _ ← throw_if (Qle_bool dims.1 0 || Qle_bool dims.2 0)
        (Error "Canvas dimensions must be positive");
  _ ← throw_if (negb (Qle_bool dims.1 50000) || negb (Qle_bool dims.2 50000))
        (Error "Canvas dimensions are too large (max 50000px)");
  Normal project.

(** What the [FileReader] delivers: a read error, or the text, given here
    by what [JSON.parse] makes of it ([None]: it throws a SyntaxError). *)
Inductive FileContent :=
| ReadFailed
| Text (parsed : option json).

(** Settlement of the promise returned by [loadProjectFile].  A rejection
    carries [new Error("Failed to parse project file: " + cause)] or
    [new Error("Failed to read file")]. *)
Inductive LoadResult :=
| Resolved (project : json)
| RejectedParse (cause : Thrown)
| RejectedRead.

(** [ProjectLoader.loadProjectFile] *)
Definition loadProjectFile (file : FileContent) : LoadResult :=
  match file with
  | ReadFailed => RejectedRead
  | Text None => RejectedParse SyntaxError
  | Text (Some project) =>
      match validate project with
      | Normal p => Resolved p
      | Throw e => RejectedParse e
      end
  end.

(** *** The validation contract, in the words of the specification *)

(** The six checks, in the order the specification lists them. *)
Inductive Check :=
| VersionPresent
| CanvasNumeric
| LayersSequence
| PresetsSequence
| CanvasPositive
| CanvasWithinLimit.

(** Reading a field of the document; anything but an object has none. *)
Definition field (key : string) (doc : jsval) : jsval :=
  match doc with
  | Some (JObj members) => own_property key members
  | _ => None
  end.

Definition canvas_dim (key : string) (doc : json) : option Q :=
  as_number (field key (field "canvas" (Some doc))).

(** Whether a document passes a check taken on its own.  "Present" is
    JavaScript's notion: defined and not falsy. *)
Definition passes (c : Check) (doc : json) : bool :=
  match c with
  | VersionPresent => truthy (field "version" (Some doc))
  | CanvasNumeric =>
      truthy (field "canvas" (Some doc))
      && bool_decide (is_Some (canvas_dim "width" doc))
      && bool_decide (is_Some (canvas_dim "height" doc))
  | LayersSequence => isArray (field "layers" (Some doc))
  | PresetsSequence => isArray (field "presets" (Some doc))
  | CanvasPositive =>
      match canvas_dim "width" doc, canvas_dim "height" doc with
      | Some w, Some h => negb (Qle_bool w 0) && negb (Qle_bool h 0)
      | _, _ => false
      end
  | CanvasWithinLimit =>
      match canvas_dim "width" doc, canvas_dim "height" doc with
      | Some w, Some h => Qle_bool w 50000 && Qle_bool h 50000
      | _, _ => false
      end
  end.

Definition checks_in_order : list Check :=
  [VersionPresent; CanvasNumeric; LayersSequence; PresetsSequence;
   CanvasPositive; CanvasWithinLimit].

(** The first check, in order, that the document violates. *)
Definition first_violation (doc : json) : option Check :=
  snd <$> list_find (λ c, passes c doc = false) checks_in_order.

(** The error each check fails with. *)
Definition error_of (c : Check) : Thrown :=
  match c with
  | VersionPresent => Error "Missing version field"
  | CanvasNumeric => Error "Missing or invalid canvas dimensions"
  | LayersSequence => Error "Missing or invalid layers array"
  | PresetsSequence => Error "Missing or invalid presets array"
  | CanvasPositive => Error "Canvas dimensions must be positive"
  | CanvasWithinLimit => Error "Canvas dimensions are too large (max 50000px)"
  end.

(** ** Project loader: runtime model converter *)

(** A layer object as [JSON.parse] hands it to the converter.  The declared
    type promises every field; the two [typeof] tests of the converter
    allow for an absent [is_visible] and an absent [z_index], so these two
    are optional here ([None]: the property is missing).  For the other
    fields the converter's own tests ([||] and [> 0]) treat a missing value
    as they treat the empty string and 0. *)
Module StoredLayer.
Record t := mk {
  id : string;
  name : string;
  file_path : string;
  width : Z;
  height : Z;
  is_visible : option bool;
  z_index : option Z
}.

(** A layer of the declared type, as the converter receives it. *)
Definition of_project (layer : ProjectLayer.t) : t :=
  mk (ProjectLayer.id layer) (ProjectLayer.name layer)
    (ProjectLayer.file_path layer) (ProjectLayer.width layer)
    (ProjectLayer.height layer) (Some (ProjectLayer.is_visible layer))
    (Some (ProjectLayer.z_index layer)).
End StoredLayer.

(** [(a, b) => a.z_index - b.z_index] at the declared type. *)
Definition by_z_index (a b : ProjectLayer.t) : Z :=
  ProjectLayer.z_index a - ProjectLayer.z_index b.

(** The same comparator on stored layers.  With a [z_index] missing the
    difference is [NaN], which [Array.prototype.sort] reads as 0.  Such a
    comparator is not consistent, and the language then leaves the order
    to the engine, so the properties below are about lists in which every
    [z_index] is present. *)
Definition by_stored_z_index (a b : StoredLayer.t) : Z :=
  match StoredLayer.z_index a, StoredLayer.z_index b with
  | Some za, Some zb => za - zb
  | _, _ => 0
  end.

Section Converter.

(** [ProjectLoader.convertFilePathToSrc] builds the URL or placeholder an
    image is fetched from.  It depends on the host ([isTauri], [btoa]) and
    its result is never written back to a project file, so the converter
    is parametric in it.  It can throw (the placeholder is encoded with
    [btoa], which refuses a character outside Latin-1): that is [None]. *)
Variable convertFilePathToSrc : string → Z → Z → option string → option string.

(** The callback of [.map((layer, index) => ...)] in
    [convertProjectLayersToRuntimeLayers]; [None] when building the source
    throws. *)
Definition toRuntimeLayer (projectDir : option string) (index : nat)
    (layer : StoredLayer.t) : option Layer.t :=
  let width :=
    if 0 <? StoredLayer.width layer then StoredLayer.width layer else 1920 in
  let height :=
    if 0 <? StoredLayer.height layer then StoredLayer.height layer else 1080 in
  src ← convertFilePathToSrc (StoredLayer.file_path layer) width height projectDir;
  Some
    (Layer.mk
       (str_or (StoredLayer.id layer) ("layer-" +:+ pretty index))
       (str_or (StoredLayer.name layer) ("Layer " +:+ pretty (index + 1)%nat))
       src
       (str_or (StoredLayer.file_path layer)
          ("./assets/layer_" +:+ pretty (index + 1)%nat +:+ ".png"))
       width
       height
       (default true (StoredLayer.is_visible layer))
       (default (Z.of_nat index) (StoredLayer.z_index layer))).

(** [ProjectLoader.convertProjectLayersToRuntimeLayers].  [Array.sort]
    sorts the argument in place and returns it, so the call has two
    results: the argument array as the caller sees it afterwards, and the
    runtime layers, or [None] when the callback throws for some layer. *)
Definition convertProjectLayersToRuntimeLayers
    (projectLayers : list StoredLayer.t) (projectDir : option string)
    : list StoredLayer.t * option (list Layer.t) :=
  let sorted := sort by_stored_z_index projectLayers in
  (sorted, mapM (λ layer, layer) (imap (toRuntimeLayer projectDir) sorted)).

(** [ProjectLoader.convertRuntimeLayersToProjectLayers] *)
Definition convertRuntimeLayersToProjectLayers (layers : list Layer.t)
    : list ProjectLayer.t :=
  (λ layer,
     ProjectLayer.mk (Layer.id layer) (Layer.name layer)
       (Layer.file_path layer) (Layer.width layer) (Layer.height layer)
       (Layer.isVisible layer) (Layer.zIndex layer))
  <$> layers.

(** The round trip of the specification: a layer list of the declared
    type to runtime layers and back. *)
Definition round_trip (projectLayers : list ProjectLayer.t)
    (projectDir : option string) : option (list ProjectLayer.t) :=
  convertRuntimeLayersToProjectLayers
  <$> (convertProjectLayersToRuntimeLayers
         (StoredLayer.of_project <$> projectLayers) projectDir).2.

End Converter.

(** *** The earlier copy of the loader ([src/utils/project-loader.ts]) *)

Module LegacyProjectLoader.

(** The body of the [try] block after [JSON.parse]: one presence test,
    [!project.version || !project.canvas || !project.layers]. *)
Definition validate (project : json) : Completion json :=
  version ← member "version" (Some project);
  _ ← throw_if (negb (truthy version)) (Error "Invalid project file format");
  canvas ← member "canvas" (Some project);
  _ ← throw_if (negb (truthy canvas)) (Error "Invalid project file format");
  layers ← member "layers" (Some project);
  _ ← throw_if (negb (truthy layers)) (Error "Invalid project file format");
  Normal project.

(** [ProjectLoader.loadProjectFile] of the earlier copy. *)
Definition loadProjectFile (file : FileContent) : LoadResult :=
  match file with
  | ReadFailed => RejectedRead
  | Text None => RejectedParse SyntaxError
  | Text (Some project) =>
      match validate project with
      | Normal p => Resolved p
      | Throw e => RejectedParse e
      end
  end.

Section LegacyConverter.

(** [convertFilePathToSrcWithDimensions], which can throw as well
    ([encodeURIComponent] refuses a lone surrogate). *)
Variable convertFilePathToSrcWithDimensions : string → Z → Z → option string.

(** [convertProjectLayersToRuntimeLayers] of the earlier copy: the same
    sort, and a callback that copies every field as it is. *)
Definition convertProjectLayersToRuntimeLayers
    (projectLayers : list ProjectLayer.t)
    : list ProjectLayer.t * option (list Layer.t) :=
  let sorted := sort by_z_index projectLayers in
  (sorted,
   mapM (λ layer,
           src ← convertFilePathToSrcWithDimensions
                   (ProjectLayer.file_path layer) (ProjectLayer.width layer)
                   (ProjectLayer.height layer);
           Some (Layer.mk (ProjectLayer.id layer) (ProjectLayer.name layer) src
                   (ProjectLayer.file_path layer) (ProjectLayer.width layer)
                   (ProjectLayer.height layer) (ProjectLayer.is_visible layer)
                   (ProjectLayer.z_index layer)))
     sorted).

Definition round_trip (projectLayers : list ProjectLayer.t)
    : option (list ProjectLayer.t) :=
  convertRuntimeLayersToProjectLayers
  <$> (convertProjectLayersToRuntimeLayers projectLayers).2.

End LegacyConverter.
End LegacyProjectLoader.

(** The runtime layer the converter builds from a stored layer when it
    substitutes no default: the fields as stored, with the source the
    resolver builds, or [None] when that throws. *)
Definition runtimeLayer_of
    (convertFilePathToSrc : string → Z → Z → option string → option string)
    (projectDir : option string) (layer : ProjectLayer.t) : option Layer.t :=
  src ← convertFilePathToSrc (ProjectLayer.file_path layer)
          (ProjectLayer.width layer) (ProjectLayer.height layer) projectDir;
  Some
    (Layer.mk (ProjectLayer.id layer) (ProjectLayer.name layer) src
       (ProjectLayer.file_path layer) (ProjectLayer.width layer)
       (ProjectLayer.height layer) (ProjectLayer.is_visible layer)
       (ProjectLayer.z_index layer)).

(** A layer for which the converter substitutes no default. *)
Definition valid_layer (layer : ProjectLayer.t) : Prop :=
  ProjectLayer.id layer ≠ "" ∧ ProjectLayer.name layer ≠ ""
  ∧ ProjectLayer.file_path layer ≠ ""
  ∧ 0 < ProjectLayer.width layer ∧ 0 < ProjectLayer.height layer.

(** Ascending [z_index], ties allowed. *)
Fixpoint ascending (keys : list Z) : Prop :=
  match keys with
  | [] => True
  | k :: rest => Forall (λ k', k <= k') rest ∧ ascending rest
  end.

(** ** Project loader: export *)

Section ProjectExport.

(** [Date.prototype.toISOString] and the clock read by [new Date()]. *)
Variable toISOString : Z → string.
Variable now : Z.

(** The callback of [presets.map(...)] in [exportProject]:
    [layer_states: preset.layerStates || preset.layer_states] and
    [created_at: preset.createdAt ? preset.createdAt.toISOString()
                 : preset.created_at || new Date().toISOString()]. *)
Definition exportPreset (preset : Preset.t) : LayerPreset.t :=
  LayerPreset.mk (Preset.id preset) (Preset.name preset)
    (match Preset.layerStates preset with
     | Some states => Some states
     | None => Preset.layer_states preset
     end)
    (match Preset.createdAt preset with
     | Some date => toISOString date
     | None => str_or (default "" (Preset.created_at preset)) (toISOString now)
     end).

(** [ProjectLoader.exportProject] *)
Definition exportProject (layers : list Layer.t) (presets : list Preset.t)
    (canvasWidth canvasHeight : Z) : ProjectFile.t :=
  ProjectFile.mk "1.0"
    (ProjectFile.mkCanvas canvasWidth canvasHeight)
    (convertRuntimeLayersToProjectLayers layers)
    (exportPreset <$> presets).

End ProjectExport.

(** ** Task manager *)

(** [interface TaskContext]: the snapshot the page hands to the task
    manager (the two callbacks play no part below). *)
Module TaskContext.
Record t := mk {
  layers : list Layer.t;
  canvasWidth : Z;
  canvasHeight : Z
}.
End TaskContext.

(** The context the page builds in its effect:
    [new TaskManager({ layers, canvasWidth, canvasHeight, ... })]. *)
Definition taskContext (st : Editor.state) : TaskContext.t :=
  TaskContext.mk (Editor.layers st) (Editor.canvasWidth st)
    (Editor.canvasHeight st).

(** The host as [handleSave] and [handleSaveAs] see it: whether the page
    runs under Tauri, the project path kept by the task manager, the path
    picked in the native save dialog and the name typed into [prompt]
    ([None]: cancelled). *)
Module Host.
Record t := mk {
  isTauri : bool;
  currentProjectPath : option string;
  saveDialog : option string;
  prompt : option string
}.
End Host.

(** What a save hands to the platform: [writeTextFile(path, json)] or a
    download named [file]; [data] is the object given to
    [JSON.stringify]. *)
Inductive Saved :=
| writeTextFile (path : string) (data : ProjectFile.t)
| download (file : string) (data : ProjectFile.t).

Definition saved_data (s : Saved) : ProjectFile.t :=
  match s with writeTextFile _ d | download _ d => d end.

Section Save.
Variable toISOString : Z → string.
Variable now : Z.

(** The [projectData] both branches of [handleSave] build: the preset
    argument is the literal [[]]. *)
Definition projectData (context : TaskContext.t) : ProjectFile.t :=
  exportProject toISOString now
    (TaskContext.layers context)
    []
    (TaskContext.canvasWidth context)
    (TaskContext.canvasHeight context).

(** [TaskManager.handleSaveAs], with the [handleSave] it ends in unfolded:
    under Tauri the chosen path has just been stored, so that call
    writes; on the web it downloads under the typed name. *)
Definition handleSaveAs (host : Host.t) (context : TaskContext.t)
    (filename : option string) : option Saved :=
  if Host.isTauri host then
    match Host.saveDialog host with
    | Some filePath =>
        if bool_decide (filePath = "") then None
        else Some (writeTextFile filePath (projectData context))
    | None => None
    end
  else
    match Host.prompt host with
    | Some userFilename =>
        if bool_decide (userFilename = "") then None
        else Some (download (userFilename +:+ ".json") (projectData context))
    | None => None
    end.

(** [TaskManager.handleSave] *)
Definition handleSave (host : Host.t) (context : TaskContext.t)
    (filename : option string) : option Saved :=
  if Host.isTauri host then
    match Host.currentProjectPath host with
    | None => handleSaveAs host context filename
    | Some path =>
        if bool_decide (path = "") then handleSaveAs host context filename
        else Some (writeTextFile path (projectData context))
    end
  else
    Some (download (str_or (default "" filename) "project" +:+ ".json")
            (projectData context)).

End Save.

(** ** Compositing *)

(** The calls made on a 2D context, in the order they are made.  The image
    drawn is the one created for a layer ([img.src = layer.src]), so it is
    named by that layer. *)
Inductive CanvasOp :=
| clearRect (x y w h : Z)
| fillRect (fillStyle : string) (x y w h : Z)
| drawImage (image : Layer.t) (dx dy dw dh : Q).

(** An [HTMLCanvasElement]: its size and what has been done to it since
    the size was set (setting [width] or [height] clears the canvas). *)
Module Canvas.
Record t := mk {
  width : Z;
  height : Z;
  ops : list CanvasOp
}.

Definition call (op : CanvasOp) (c : t) : t :=
  mk (width c) (height c) (ops c ++ [op]).

(** The layers painted so far, in paint order. *)
Definition painted (c : t) : list Layer.t :=
  omap (λ op, match op with drawImage image _ _ _ _ => Some image | _ => None end)
    (ops c).
End Canvas.

(** Destination rectangle of a [drawImage] call. *)
Record Rect := mkRect { dx : Q; dy : Q; dw : Q; dh : Q }.

Definition draw (image : Layer.t) (r : Rect) (c : Canvas.t) : Canvas.t :=
  Canvas.call (drawImage image (dx r) (dy r) (dw r) (dh r)) c.

(** The [img.onload] body of the Tauri-aware [handleQuickExportPNG] and
    [handleQuickExportJPG]: scale by the smaller of the two ratios and
    centre.  Division is exact; a layer of width or height zero, for which
    JavaScript yields [Infinity] or [NaN], is outside the model. *)
Definition fit (canvasWidth canvasHeight : Z) (layer : Layer.t) : Rect :=
  let scaleX := (inject_Z canvasWidth / inject_Z (Layer.width layer))%Q in
  let scaleY := (inject_Z canvasHeight / inject_Z (Layer.height layer))%Q in
  let scale := Qmin scaleX scaleY in
  let scaledWidth := (inject_Z (Layer.width layer) * scale)%Q in
  let scaledHeight := (inject_Z (Layer.height layer) * scale)%Q in
  let offsetX := ((inject_Z canvasWidth - scaledWidth) / 2)%Q in
  let offsetY := ((inject_Z canvasHeight - scaledHeight) / 2)%Q in
  mkRect offsetX offsetY scaledWidth scaledHeight.

(** [ctx.drawImage(img, 0, 0, canvasWidth, canvasHeight)]: the image is
    stretched over the whole canvas. *)
Definition stretch (canvasWidth canvasHeight : Z) (layer : Layer.t) : Rect :=
  mkRect 0 0 (inject_Z canvasWidth) (inject_Z canvasHeight).

(** [(a, b) => a.zIndex - b.zIndex] *)
Definition by_zIndex (a b : Layer.t) : Z := Layer.zIndex a - Layer.zIndex b.

(** The browser's report on the image created for [visibleLayers[index]]. *)
Inductive ImageEvent :=
| onload (index : nat)
| onerror (index : nat).

Definition event_index (e : ImageEvent) : nat :=
  match e with onload i | onerror i => i end.

(** Each initiated decode settles exactly once: the schedule mentions
    every image index once, in any order. *)
Definition settles_all (n : nat) (schedule : list ImageEvent) : Prop :=
  event_index <$> schedule ≡ₚ seq 0 n.

(** The layers whose image loaded, in the order the loads completed. *)
Definition decoded (visibleLayers : list Layer.t) (schedule : list ImageEvent)
    : list Layer.t :=
  omap (λ e, match e with
             | onload index => visibleLayers !! index
             | onerror _ => None
             end) schedule.

Inductive PromiseState := Pending | Fulfilled.

(** The state shared by the closures of one export: the canvas, the
    counter [loadedImages], what has been handed out at completion, and
    the promise. *)
Module Run.
Record t (Output : Type) := mk {
  canvas : Canvas.t;
  loadedImages : nat;
  outputs : list Output;
  promise : PromiseState
}.
Arguments mk {Output}.
Arguments canvas {Output}.
Arguments loadedImages {Output}.
Arguments outputs {Output}.
Arguments promise {Output}.
End Run.

(** The shape common to the export paths: they differ in how the canvas
    is prepared, where a layer is drawn and what is done with the finished
    canvas. *)
Section Composite.
Context {Output : Type}.
Variable prepare : Canvas.t → Canvas.t.
Variable place : Layer.t → Rect.
Variable finish : Canvas.t → Output.
Variable canvasWidth canvasHeight : Z.
Variable visibleLayers : list Layer.t.

(** [checkComplete]: when the counter reaches [totalImages], hand the
    canvas out and resolve. *)
Definition checkComplete (r : Run.t Output) : Run.t Output :=
  if (Run.loadedImages r =? length visibleLayers)%nat
  then Run.mk (Run.canvas r) (Run.loadedImages r)
         (Run.outputs r ++ [finish (Run.canvas r)]) Fulfilled
  else r.

(** [img.onload] and [img.onerror] of the image of [layer]. *)
Definition img_onload (layer : Layer.t) (r : Run.t Output) : Run.t Output :=
  checkComplete
    (Run.mk (draw layer (place layer) (Run.canvas r))
       (S (Run.loadedImages r)) (Run.outputs r) (Run.promise r)).

Definition img_onerror (layer : Layer.t) (r : Run.t Output) : Run.t Output :=
  checkComplete
    (Run.mk (Run.canvas r) (S (Run.loadedImages r)) (Run.outputs r)
       (Run.promise r)).

(** Dispatch of one browser event to the closure of its image. *)
Definition handle (r : Run.t Output) (e : ImageEvent) : Run.t Output :=
  match visibleLayers !! event_index e with
  | None => r
  | Some layer =>
      match e with
      | onload _ => img_onload layer r
      | onerror _ => img_onerror layer r
      end
  end.

(** The synchronous part: size and prepare the canvas; with nothing to
    draw, hand it out at once and return. *)
Definition begin : Run.t Output :=
  let canvas := prepare (Canvas.mk canvasWidth canvasHeight []) in
  if (length visibleLayers =? 0)%nat
  then Run.mk canvas 0 [finish canvas] Fulfilled
  else Run.mk canvas 0 [] Pending.

(** The export after the browser has delivered [schedule]. *)
Definition composite (schedule : list ImageEvent) : Run.t Output :=
  foldl handle begin schedule.

(** The prepared canvas with the layers [drawn] painted on it, in that
    order. *)
Definition canvas_after (drawn : list Layer.t) : Canvas.t :=
  foldl (λ c layer, draw layer (place layer) c)
    (prepare (Canvas.mk canvasWidth canvasHeight [])) drawn.

End Composite.

(** The arguments of a [downloadCanvas] call. *)
Record Download := mkDownload {
  d_canvas : Canvas.t;
  d_filename : string;
  d_format : string;
  d_quality : Z
}.

(** [this.context.layers.filter(layer => layer.isVisible)
      .sort((a, b) => a.zIndex - b.zIndex)] *)
Definition visible_sorted (layers : list Layer.t) : list Layer.t :=
  sort by_zIndex (filter (λ layer, Layer.isVisible layer = true) layers).

(** [TaskManager.handleQuickExportPNG] (Tauri-aware task manager). *)
Definition handleQuickExportPNG (context : TaskContext.t)
    (filename : option string) (schedule : list ImageEvent) : Run.t Download :=
  let w := TaskContext.canvasWidth context in
  let h := TaskContext.canvasHeight context in
  composite
    (Canvas.call (clearRect 0 0 w h))
    (fit w h)
    (λ canvas, mkDownload canvas (default "canvas-export" filename) "png" 100)
    w h
    (visible_sorted (TaskContext.layers context))
    schedule.

(** [TaskManager.handleQuickExportJPG] (Tauri-aware task manager). *)
Definition handleQuickExportJPG (context : TaskContext.t)
    (filename : option string) (quality : option Z)
    (schedule : list ImageEvent) : Run.t Download :=
  let w := TaskContext.canvasWidth context in
  let h := TaskContext.canvasHeight context in
  composite
    (Canvas.call (fillRect "white" 0 0 w h))
    (fit w h)
    (λ canvas,
       mkDownload canvas (default "canvas-export" filename) "jpg"
         (default 90 quality))
    w h
    (visible_sorted (TaskContext.layers context))
    schedule.

(** The task manager that predates Tauri support (first [TaskManager] of
    the tasks module). *)
Module WebTaskManager.

Definition handleQuickExportPNG (context : TaskContext.t)
    (filename : option string) (schedule : list ImageEvent) : Run.t Download :=
  let w := TaskContext.canvasWidth context in
  let h := TaskContext.canvasHeight context in
  composite
    (Canvas.call (clearRect 0 0 w h))
    (stretch w h)
    (λ canvas, mkDownload canvas (default "quick-export" filename) "png" 100)
    w h
    (visible_sorted (TaskContext.layers context))
    schedule.

End WebTaskManager.

(** [ExportManager.captureCanvas], the compositor of the export dialog
    (single export and one run per preset of a bulk export), for a mounted
    canvas.  With a preset the layers are chosen by
    [layerStates[layer.id]] (own entries here, as the engine reads them
    in [Js.captureCanvas]), otherwise by [isVisible].  The promise
    resolves with the canvas contents. *)
Definition captureCanvas (layers : list Layer.t) (canvasWidth canvasHeight : Z)
    (layerStates : option (gmap string bool)) (schedule : list ImageEvent)
    : Run.t Canvas.t :=
  let currentLayers :=
    match layerStates with
    | Some states =>
        sort by_zIndex
          (filter (λ layer, states !! Layer.id layer = Some true) layers)
    | None => visible_sorted layers
    end in
  composite
    (Canvas.call (clearRect 0 0 canvasWidth canvasHeight))
    (stretch canvasWidth canvasHeight)
    (λ canvas, canvas)
    canvasWidth canvasHeight
    currentLayers
    schedule.

(** ** Property reads at run time *)

(** [layerStates] is a plain object.  At its declared type
    [Record<string, boolean>] its own properties are booleans, and the
    definitions above read own properties only.  The engine's
    [layerStates[key]] also finds what every plain object inherits from
    [Object.prototype]; this module reads as the engine does, for layers
    of the declared type. *)
Module Js.

(** The property names of [Object.prototype]. *)
Definition Object_prototype : list string :=
  ["constructor"; "__defineGetter__"; "__defineSetter__"; "hasOwnProperty";
   "__lookupGetter__"; "__lookupSetter__"; "isPrototypeOf";
   "propertyIsEnumerable"; "toString"; "valueOf"; "__proto__";
   "toLocaleString"].

(** What a read can yield: an own boolean, or the function or object
    inherited under a name. *)
Inductive Value :=
| boolean (b : bool)
| inherited (name : string).

(** [layerStates[key]]; [None] is [undefined]. *)
Definition get (layerStates : gmap string bool) (key : string)
    : option Value :=
  match layerStates !! key with
  | Some b => Some (boolean b)
  | None =>
      if bool_decide (key ∈ Object_prototype) then Some (inherited key)
      else None
  end.

(** ToBoolean: functions and objects are truthy, [undefined] is not. *)
Definition truthy (v : option Value) : bool :=
  match v with
  | Some (boolean b) => b
  | Some (inherited _) => true
  | None => false
  end.

(** A layer object as it is at run time: [isVisible] holds whatever was
    assigned to it. *)
Record RuntimeLayer := mkLayer {
  id : string;
  name : string;
  src : string;
  file_path : string;
  width : Z;
  height : Z;
  isVisible : Value;
  zIndex : Z
}.

(** [{ ...layer, isVisible: v }] *)
Definition with_isVisible (v : Value) (layer : Layer.t) : RuntimeLayer :=
  mkLayer (Layer.id layer) (Layer.name layer) (Layer.src layer)
    (Layer.file_path layer) (Layer.width layer) (Layer.height layer) v
    (Layer.zIndex layer).

(** A layer of the declared type as a run-time object. *)
Definition of_layer (layer : Layer.t) : RuntimeLayer :=
  with_isVisible (boolean (Layer.isVisible layer)) layer.

(** [handleApplyPreset]: [??] falls back on [layer.isVisible] for
    [undefined] only. *)
Definition handleApplyPreset (layerStates : gmap string bool)
    (prev : list Layer.t) : list RuntimeLayer :=
  (λ layer,
     with_isVisible
       (default (boolean (Layer.isVisible layer))
          (get layerStates (Layer.id layer)))
       layer)
  <$> prev.

(** [layers.filter((layer) => layerStates[layer.id])], sorted, when layer
    states are given. *)
Definition currentLayers (layers : list Layer.t)
    (layerStates : option (gmap string bool)) : list Layer.t :=
  match layerStates with
  | Some states =>
      sort by_zIndex
        (filter (λ layer, truthy (get states (Layer.id layer)) = true) layers)
  | None => visible_sorted layers
  end.

(** [ExportManager.captureCanvas] over these layers. *)
Definition captureCanvas (layers : list Layer.t) (canvasWidth canvasHeight : Z)
    (layerStates : option (gmap string bool)) (schedule : list ImageEvent)
    : Run.t Canvas.t :=
  composite
    (Canvas.call (clearRect 0 0 canvasWidth canvasHeight))
    (stretch canvasWidth canvasHeight)
    (λ canvas, canvas)
    canvasWidth canvasHeight
    (currentLayers layers layerStates)
    schedule.

(** The layers for which the typed reading and the engine agree: the
    layer states have an entry for the id, or the id names nothing
    inherited. *)
Definition plain (states : gmap string bool) (layer : Layer.t) : Prop :=
  is_Some (states !! Layer.id layer) ∨ Layer.id layer ∉ Object_prototype.

End Js.

(** ** Sample inputs *)

(** A project document with the four top-level members. *)
Definition project_doc (version : string) (width height : Q)
    (layers presets : list json) : json :=
  JObj [("version", JStr version);
        ("canvas", JObj [("width", JNum width); ("height", JNum height)]);
        ("layers", JArr layers);
        ("presets", JArr presets)].

(** Two visible, canvas-sized layers, the background below the overlay. *)
Definition background : Layer.t :=
  Layer.mk "bg" "Background" "/project-assets/bg.png" "./assets/bg.png"
    1920 1080 true 0.

Definition overlay : Layer.t :=
  Layer.mk "fg" "Overlay" "/project-assets/fg.png" "./assets/fg.png"
    1920 1080 true 1.

Definition two_layers : TaskContext.t :=
  TaskContext.mk [background; overlay] 1920 1080.

(** A 100 by 50 layer on a 200 by 200 canvas. *)
Definition banner : Layer.t :=
  Layer.mk "banner" "Banner" "/project-assets/banner.png"
    "./assets/banner.png" 100 50 true 0.

Definition square_canvas : TaskContext.t := TaskContext.mk [banner] 200 200.

(** An editor holding the two layers and one preset that hides the
    overlay. *)
Definition hide_overlay : Preset.t :=
  Preset.mk "preset-1" "No overlay" None
    (Some (<["bg" := true]> (<["fg" := false]> ∅)))
    None (Some "2025-01-01T00:00:00.000Z").

Definition editor_with_preset : Editor.state :=
  Editor.mk [background; overlay] [hide_overlay] 1920 1080 (Some "bg").

(** An editor whose two layers carry the same id, as a project file may
    since the loader does not reject duplicates. *)
Definition editor_duplicate_ids : Editor.state :=
  Editor.mk
    [Layer.mk "a" "Background" "" "./assets/bg.png" 1920 1080 true 0;
     Layer.mk "a" "Overlay" "" "./assets/fg.png" 1920 1080 true 1]
    [] 1920 1080 None.

(** A layer list stored front to back. *)
Definition unsorted_file : list ProjectLayer.t :=
  [ProjectLayer.mk "fg" "Overlay" "./assets/fg.png" 1920 1080 true 1;
   ProjectLayer.mk "bg" "Background" "./assets/bg.png" 1920 1080 true 0].

Definition sorted_file : list ProjectLayer.t :=
  [ProjectLayer.mk "bg" "Background" "./assets/bg.png" 1920 1080 true 0;
   ProjectLayer.mk "fg" "Overlay" "./assets/fg.png" 1920 1080 true 1].

(** The page in a browser: no Tauri, nothing picked or typed. *)
Definition web_host : Host.t := Host.mk false None None None.

(** A hidden layer whose id is the name of an inherited property. *)
Definition constructor_layer : Layer.t :=
  Layer.mk "constructor" "Sketch" "/project-assets/sketch.png"
    "./assets/sketch.png" 1920 1080 false 0.

(** A context whose only layer is hidden. *)
Definition hidden_only : TaskContext.t :=
  TaskContext.mk [Layer.with_isVisible false background] 1920 1080.

(** The resolver that hands the file path through unchanged. *)
Definition identity_resolver
    : string → Z → Z → option string → option string :=
  λ filePath _ _ _, Some filePath.

Definition legacy_identity_resolver : string → Z → Z → option string :=
  λ filePath _ _, Some filePath.

(** * Further parts of the editor *)

(** ** Page component: the remaining handlers *)

(** [handleLayerToggleVisibility] *)
Definition handleLayerToggleVisibility (id : string) (prev : list Layer.t)
    : list Layer.t :=
  (λ layer,
     if bool_decide (Layer.id layer = id)
     then Layer.with_isVisible (negb (Layer.isVisible layer)) layer
     else layer)
  <$> prev.

(** [Number.isSafeInteger]: the integers on which the arithmetic of
    numbers is exact. *)
Definition isSafeInteger (z : Z) : Prop := - 2 ^ 53 < z < 2 ^ 53.

(** [layers.length > 0 ? Math.max(...layers.map((l) => l.zIndex)) : -1].
    Integers stand for the numbers of the source; adding 1 to the maximum,
    as [handleAddLayer] does, is exact for safe integers. *)
Definition maxZIndex (layers : list Layer.t) : Z :=
  match layers with
  | [] => -1
  | first :: rest => foldl Z.max (Layer.zIndex first) (Layer.zIndex <$> rest)
  end.

(** The layer [handleAddLayer] builds; [now] is what [Date.now()] reads. *)
Definition newLayer (now : Z) (st : Editor.state) : Layer.t :=
  let number := pretty (length (Editor.layers st) + 1)%nat in
  Layer.mk
    ("layer-" +:+ pretty now)
    ("New Layer " +:+ number)
    ("/placeholder.svg?height=" +:+ pretty (Editor.canvasHeight st)
       +:+ "&width=" +:+ pretty (Editor.canvasWidth st)
       +:+ "&text=New+Layer+" +:+ number)
    ("./assets/new_layer_" +:+ number +:+ ".png")
    (Editor.canvasWidth st)
    (Editor.canvasHeight st)
    true
    (maxZIndex (Editor.layers st) + 1).

(** [handleAddLayer]: append the new layer and select it. *)
Definition handleAddLayer (now : Z) (st : Editor.state) : Editor.state :=
  Editor.mk (Editor.layers st ++ [newLayer now st]) (Editor.presets st)
    (Editor.canvasWidth st) (Editor.canvasHeight st)
    (Some (Layer.id (newLayer now st))).

(** [handleLayerSelect] *)
Definition handleLayerSelect (id : string) (st : Editor.state) : Editor.state :=
  Editor.mk (Editor.layers st) (Editor.presets st)
    (Editor.canvasWidth st) (Editor.canvasHeight st) (Some id).

(** A handler that only replaces the layer list. *)
Definition setLayers (f : list Layer.t → list Layer.t) (st : Editor.state)
    : Editor.state :=
  Editor.mk (f (Editor.layers st)) (Editor.presets st)
    (Editor.canvasWidth st) (Editor.canvasHeight st)
    (Editor.selectedLayerId st).

(** The whole page state: the editor part above with the view and the
    project flags. *)
Module Page.
Record state := mk {
  editor : Editor.state;
  zoom : Q;
  panX : Q;
  panY : Q;
  isProjectLoaded : bool;
  projectName : option string
}.
End Page.

(** [handleLoadProject]: take over the loaded project, select its first
    layer and reset the view.  [fileName || null] keeps a non-empty name. *)
Definition handleLoadProject (newLayers : list Layer.t)
    (newPresets : list Preset.t) (newCanvasWidth newCanvasHeight : Z)
    (fileName : option string) (st : Page.state) : Page.state :=
  Page.mk
    (Editor.mk newLayers newPresets newCanvasWidth newCanvasHeight
       (Layer.id <$> head newLayers))
    0.3 0 0 true
    (match fileName with
     | Some name => if bool_decide (name = "") then None else Some name
     | None => None
     end).

(** [handleNewProject] *)
Definition handleNewProject (st : Page.state) : Page.state :=
  Page.mk (Editor.mk [] [] 1920 1080 None) 0.3 0 0 false None.

(** [handlePanChange] *)
Definition handlePanChange (x y : Q) (st : Page.state) : Page.state :=
  Page.mk (Page.editor st) (Page.zoom st) x y
    (Page.isProjectLoaded st) (Page.projectName st).

(** [handleZoomChange]: with a centre, move the pan so that the zoom turns
    about it.  Division is exact; a current zoom of zero is outside the
    model. *)
Definition handleZoomChange (newZoom : Q) (center : option (Q * Q))
    (st : Page.state) : Page.state :=
  match center with
  | Some (centerX, centerY) =>
      let zoomRatio := (newZoom / Page.zoom st)%Q in
      let newPanX := (centerX - (centerX - Page.panX st) * zoomRatio)%Q in
      let newPanY := (centerY - (centerY - Page.panY st) * zoomRatio)%Q in
      Page.mk (Page.editor st) newZoom newPanX newPanY
        (Page.isProjectLoaded st) (Page.projectName st)
  | None =>
      Page.mk (Page.editor st) newZoom (Page.panX st) (Page.panY st)
        (Page.isProjectLoaded st) (Page.projectName st)
  end.

(** What the user can do to the layers of the page, and the handler each
    action runs.  A layer is selected by clicking its row and dropped on
    another row, so those ids are ids of listed layers; a project is
    loaded from layers the loader has sorted. *)
Inductive PageAction :=
| ToggleVisibility (id : string)
| SelectLayer (id : string)
| AddLayer (now : Z)
| DeleteLayer (id : string)
| ReorderLayers (draggedId targetId : string)
| ApplyPreset (layerStates : gmap string bool)
| LoadProject (newLayers : list Layer.t) (newPresets : list Preset.t)
    (newCanvasWidth newCanvasHeight : Z) (fileName : option string)
| NewProject.

Definition on_editor (f : Editor.state → Editor.state) (st : Page.state)
    : Page.state :=
  Page.mk (f (Page.editor st)) (Page.zoom st) (Page.panX st) (Page.panY st)
    (Page.isProjectLoaded st) (Page.projectName st).

Definition perform (a : PageAction) (st : Page.state) : Page.state :=
  match a with
  | ToggleVisibility id =>
      on_editor (setLayers (handleLayerToggleVisibility id)) st
  | SelectLayer id => on_editor (handleLayerSelect id) st
  | AddLayer now => on_editor (handleAddLayer now) st
  | DeleteLayer id => on_editor (handleDeleteLayer id) st
  | ReorderLayers draggedId targetId =>
      on_editor (setLayers (handleReorderLayers draggedId targetId)) st
  | ApplyPreset layerStates =>
      on_editor (setLayers (handleApplyPreset layerStates)) st
  | LoadProject newLayers newPresets w h fileName =>
      handleLoadProject newLayers newPresets w h fileName st
  | NewProject => handleNewProject st
  end.

(** The actions the page offers in a state. *)
Definition offered (a : PageAction) (st : Page.state) : Prop :=
  match a with
  | SelectLayer id => id ∈ Layer.id <$> Editor.layers (Page.editor st)
  | LoadProject newLayers _ _ _ _ => ascending (Layer.zIndex <$> newLayers)
  | _ => True
  end.

(** The page as first rendered. *)
Definition initial_page : Page.state :=
  Page.mk (Editor.mk [] [] 1920 1080 None) 0.3 0 0 false None.

(** The states the page can reach. *)
Inductive reachable : Page.state → Prop :=
| reachable_initial : reachable initial_page
| reachable_step a st :
    reachable st → offered a st → reachable (perform a st).

(** The selection names a listed layer, or nothing. *)
Definition selection_listed (st : Editor.state) : Prop :=
  match Editor.selectedLayerId st with
  | Some id => id ∈ Layer.id <$> Editor.layers st
  | None => True
  end.

(** ** Canvas component: zoom controls *)

Module CanvasView.

(** [handleWheel], for a mounted container: [deltaY] is the wheel delta
    and the centre is the pointer position inside the container. *)
Definition handleWheel (deltaY centerX centerY : Q) (st : Page.state)
    : Page.state :=
  let zoomFactor := if Qlt_le_dec 0 deltaY then 0.9%Q else 1.1%Q in
  let newZoom := Qmax 0.1 (Qmin 10 (Page.zoom st * zoomFactor)) in
  handleZoomChange newZoom (Some (centerX, centerY)) st.

(** [handleZoomIn] and [handleZoomOut] *)
Definition handleZoomIn (st : Page.state) : Page.state :=
  handleZoomChange (Qmin (Page.zoom st * 1.2) 10) None st.

Definition handleZoomOut (st : Page.state) : Page.state :=
  handleZoomChange (Qmax (Page.zoom st / 1.2) 0.1) None st.

(** [handleActualSize] *)
Definition handleActualSize (st : Page.state) : Page.state :=
  handlePanChange 0 0 (handleZoomChange 1 None st).

End CanvasView.

(** ** Preset manager *)

(** The snapshot [savePreset] takes:
    [layers.forEach((layer) => { layerStates[layer.id] = layer.isVisible })].
    Assigning to ["__proto__"] runs the setter inherited from
    [Object.prototype], which ignores a boolean: no property is created. *)
Definition layerStates_of (layers : list Layer.t) : gmap string bool :=
  foldl (λ layerStates layer,
           if bool_decide (Layer.id layer = "__proto__") then layerStates
           else <[Layer.id layer := Layer.isVisible layer]> layerStates)
    ∅ layers.

(** The entry a layer contributes to the snapshot. *)
Definition entry_of (layer : Layer.t) : string * bool :=
  (Layer.id layer, Layer.isVisible layer).

Module PresetManager.
Section PresetManager.

(** [String.prototype.trim] and [Date.prototype.toISOString], supplied by
    the engine. *)
Variable trim : string → string.
Variable toISOString : Z → string.

(** [savePreset]: nothing happens for a blank name; otherwise the new
    preset, holding the snapshot, goes to the end of the list.  [now] and
    [created] are the two clock readings, for the id and for
    [created_at]. *)
Definition savePreset (newPresetName : string) (now created : Z)
    (layers : list Layer.t) (presets : list Preset.t) : list Preset.t :=
  if bool_decide (trim newPresetName = "") then presets
  else
    presets ++
    [Preset.mk ("preset-" +:+ pretty now) (trim newPresetName)
       None (Some (layerStates_of layers))
       None (Some (toISOString created))].

End PresetManager.

(** [preset.layer_states || preset.layerStates]: objects are truthy, so
    the first spelling that is defined wins. *)
Definition states_of (preset : Preset.t) : option (gmap string bool) :=
  match Preset.layer_states preset with
  | Some states => Some states
  | None => Preset.layerStates preset
  end.

(** [applyPreset]: hand [layer_states || layerStates || {}] to
    [onApplyPreset], which is the page's [handleApplyPreset]. *)
Definition applyPreset (preset : Preset.t) (layers : list Layer.t)
    : list Layer.t :=
  handleApplyPreset (default ∅ (states_of preset)) layers.

(** [deletePreset] *)
Definition deletePreset (presetId : string) (presets : list Preset.t)
    : list Preset.t :=
  filter (λ p, Preset.id p ≠ presetId) presets.

(** [Object.values(layerStates).filter(Boolean).length] and
    [Object.keys(layerStates).length] *)
Definition visibleCount (layerStates : gmap string bool) : nat :=
  length (filter (λ entry, entry.2 = true) (map_to_list layerStates)).

Definition totalCount (layerStates : gmap string bool) : nat :=
  length (map_to_list layerStates).

(** [getPresetSummary] *)
Definition getPresetSummary (preset : Preset.t) : string :=
  match states_of preset with
  | None => "Invalid preset"
  | Some layerStates =>
      pretty (visibleCount layerStates) +:+ "/"
        +:+ pretty (totalCount layerStates) +:+ " visible"
  end.

End PresetManager.

(** The reordering shared by the [handleDrop] of the preset list and of
    the export queue: take the dragged element out and put it back at the
    index the target had. *)
Definition move_by_id {A : Type} (id : A → string)
    (draggedId targetId : string) (prev : list A) : list A :=
  match findIndex (λ x, bool_decide (id x = draggedId)) prev,
        findIndex (λ x, bool_decide (id x = targetId)) prev with
  | Some draggedIndex, Some targetIndex =>
      match prev !! draggedIndex with
      | Some dragged => splice_insert targetIndex dragged (delete draggedIndex prev)
      | None => prev
      end
  | _, _ => prev
  end.

(** [handleDrop]: [if (draggedId && draggedId !== targetId) ...] *)
Definition handleDrop {A : Type} (id : A → string)
    (draggedId targetId : string) (prev : list A) : list A :=
  if bool_decide (draggedId ≠ "") && bool_decide (draggedId ≠ targetId)
  then move_by_id id draggedId targetId prev
  else prev.

(** ** Export manager *)

(** [format: "png" | "jpg"] *)
Inductive ImageFormat := png | jpg.

(** [interface ExportItem] *)
Module ExportItem.
Record t := mk {
  id : string;
  name : string;
  preset : LayerPreset.t;
  format : ImageFormat;
  quality : Z;
  enabled : bool
}.

(** [{ ...item, enabled }] *)
Definition with_enabled (e : bool) (item : t) : t :=
  mk (id item) (name item) (preset item) (format item) (quality item) e.
End ExportItem.

(** The arguments of a [downloadImage] call; the image is the captured
    canvas. *)
Record ImageDownload := mkImageDownload {
  i_image : Canvas.t;
  i_filename : string;
  i_format : ImageFormat;
  i_quality : Z
}.

(** The layers [captureCanvas] composites: those the preset maps to
    [true] when a preset is given, the visible ones otherwise, sorted by
    [zIndex].  Own entries only; [Js.currentLayers] reads as the engine
    does. *)
Definition currentLayers (layers : list Layer.t)
    (layerStates : option (gmap string bool)) : list Layer.t :=
  match layerStates with
  | Some states =>
      sort by_zIndex
        (filter (λ layer, states !! Layer.id layer = Some true) layers)
  | None => visible_sorted layers
  end.

(** The canvas [captureCanvas] resolves with once the layers [drawn] have
    loaded, in that order. *)
Definition captured (canvasWidth canvasHeight : Z) (drawn : list Layer.t)
    : Canvas.t :=
  canvas_after (Canvas.call (clearRect 0 0 canvasWidth canvasHeight))
    (stretch canvasWidth canvasHeight) canvasWidth canvasHeight drawn.

Module ExportManager.


(** [toggleAllExportItems] *)
Definition toggleAllExportItems (enabled : bool) (prev : list ExportItem.t)
    : list ExportItem.t :=
  ExportItem.with_enabled enabled <$> prev.

(** What a bulk export changes: the three progress fields of the dialog,
    the arguments it has passed to [onApplyPreset], in call order, and the
    [downloadImage] calls it has made. *)
Record Bulk := mkBulk {
  isExporting : bool;
  exportProgress : Q;
  currentExportName : string;
  applied : list (option (gmap string bool));
  downloads : list ImageDownload
}.

(** The dialog before any export. *)
Definition idle : Bulk := mkBulk false 0 "" [] [].

(** The [for] loop of [exportBulk] from item [i] on, over the enabled
    items still to do.  Each item names itself, applies its preset through
    [onApplyPreset] and awaits [captureCanvas]; the head of [schedules] is
    what the browser reports for that capture.  While a capture has not
    resolved the loop stays at its [await]; when it has, the image is
    downloaded under the item's name and the progress is advanced.  After
    the last item the three progress fields are reset.  (The two timer
    delays only pass time.) *)
Fixpoint exportBulk_from (layers : list Layer.t) (canvasWidth canvasHeight : Z)
    (total i : nat) (items : list ExportItem.t)
    (schedules : list (list ImageEvent)) (run : Bulk) : Bulk :=
  match items with
  | [] => mkBulk false 0 "" (applied run) (downloads run)
  | item :: rest =>
      let layerStates := LayerPreset.layer_states (ExportItem.preset item) in
      let started :=
        mkBulk (isExporting run) (exportProgress run) (ExportItem.name item)
          (applied run ++ [layerStates]) (downloads run) in
      match
        Run.outputs
          (captureCanvas layers canvasWidth canvasHeight layerStates
             (hd [] schedules))
      with
      | [] => started
      | dataUrl :: _ =>
          exportBulk_from layers canvasWidth canvasHeight total (S i) rest
            (tl schedules)
            (mkBulk (isExporting started)
               (inject_Z (Z.of_nat (i + 1)) / inject_Z (Z.of_nat total) * 100)
               (currentExportName started)
               (applied started)
               (downloads started ++
                [mkImageDownload dataUrl (ExportItem.name item)
                   (ExportItem.format item) (ExportItem.quality item)]))
      end
  end.

(** [exportBulk], for a mounted canvas: nothing at all without an enabled
    item, otherwise the loop over the enabled items in queue order. *)
Definition exportBulk (exportItems : list ExportItem.t) (layers : list Layer.t)
    (canvasWidth canvasHeight : Z) (schedules : list (list ImageEvent))
    (run : Bulk) : Bulk :=
  let enabledItems :=
    filter (λ item, ExportItem.enabled item = true) exportItems in
  if (length enabledItems =? 0)%nat then run
  else
    exportBulk_from layers canvasWidth canvasHeight (length enabledItems) 0
      enabledItems schedules
      (mkBulk true 0 (currentExportName run) (applied run) (downloads run)).

End ExportManager.



(** ** Task manager: opening under Tauri *)

Section TauriOpen.

(** [convertFileSrc(await path.join(projectDir, file_path))]: the asset
    URL, or [None] when resolving it throws; and [encodeURIComponent]. *)
Variable assetUrl : string → string → option string.
Variable encodeURIComponent : string → string.

(** The body of the loop of [loadLayersWithAssets]: the layer is kept with
    the fields of the file; its source is the asset URL, or a placeholder
    when the asset cannot be resolved. *)
Definition layerWithAsset (projectDir : string) (layer : ProjectLayer.t)
    : Layer.t :=
  Layer.mk (ProjectLayer.id layer) (ProjectLayer.name layer)
    (match assetUrl projectDir (ProjectLayer.file_path layer) with
     | Some url => url
     | None =>
         "/placeholder.svg?height=" +:+ pretty (ProjectLayer.height layer)
           +:+ "&width=" +:+ pretty (ProjectLayer.width layer)
           +:+ "&text=" +:+ encodeURIComponent (ProjectLayer.name layer)
     end)
    (ProjectLayer.file_path layer)
    (ProjectLayer.width layer) (ProjectLayer.height layer)
    (ProjectLayer.is_visible layer) (ProjectLayer.z_index layer).

(** [TaskManager.loadLayersWithAssets] *)
Definition loadLayersWithAssets (projectLayers : list ProjectLayer.t)
    (projectDir : string) : list Layer.t :=
  sort by_zIndex (layerWithAsset projectDir <$> projectLayers).

(** [TaskManager.loadTauriProject], from the parsed file on: the layers
    with their assets, the presets field by field, and the canvas size as
    the file has it go to [onLoadProject].  Nothing is validated. *)
Definition loadTauriProject (projectData : ProjectFile.t)
    (projectDir fileName : string) : PageAction :=
  LoadProject
    (loadLayersWithAssets (ProjectFile.layers projectData) projectDir)
    ((λ preset,
        Preset.mk (LayerPreset.id preset) (LayerPreset.name preset) None
          (LayerPreset.layer_states preset) None
          (Some (LayerPreset.created_at preset)))
     <$> ProjectFile.presets projectData)
    (ProjectFile.width (ProjectFile.canvas projectData))
    (ProjectFile.height (ProjectFile.canvas projectData))
    (Some fileName).

End TauriOpen.

(** A runtime layer that the web converter would read back without
    substituting a default. *)
Definition valid_runtime_layer (layer : Layer.t) : Prop :=
  Layer.id layer ≠ "" ∧ Layer.name layer ≠ "" ∧ Layer.file_path layer ≠ ""
  ∧ 0 < Layer.width layer ∧ 0 < Layer.height layer.

(** ** Project loader: image sources *)

(** [s.includes(needle)] *)
Fixpoint includes (needle s : string) : bool :=
  String.prefix needle s
  || match s with
     | EmptyString => false
     | String _ rest => includes needle rest
     end.

(** [s.split("/").pop()]: what follows the last slash; the whole string
    when it has none. *)
Fixpoint last_segment (s : string) : string :=
  match s with
  | EmptyString => EmptyString
  | String c rest =>
      if includes "/" rest then last_segment rest
      else if bool_decide (String c EmptyString = "/") then rest
      else String c rest
  end.

(** ASCII lower case, for the [i] flag of the extension pattern. *)
Definition lower (c : Ascii.ascii) : Ascii.ascii :=
  let n := Ascii.nat_of_ascii c in
  if (65 <=? n)%nat && (n <=? 90)%nat then Ascii.ascii_of_nat (n + 32) else c.

Fixpoint lowercase (s : string) : string :=
  match s with
  | EmptyString => EmptyString
  | String c rest => String (lower c) (lowercase rest)
  end.

Definition ends_with (suffix s : string) : bool :=
  (String.length suffix <=? String.length s)%nat
  && String.eqb
       (String.substring (String.length s - String.length suffix)
          (String.length suffix) s)
       suffix.

(** [s.replace(/\.(png|jpg|jpeg)$/i, "")] *)
Definition strip_image_extension (s : string) : string :=
  if ends_with ".jpeg" (lowercase s)
  then String.substring 0 (String.length s - 5) s
  else if ends_with ".png" (lowercase s) || ends_with ".jpg" (lowercase s)
  then String.substring 0 (String.length s - 4) s
  else s.

Section ImageSource.

(** [ProjectLoader.createPlaceholder] encodes an SVG with [btoa]; it is
    supplied here. *)
Variable createPlaceholder : string → Z → Z → string.

(** [ProjectLoader.convertFilePathToSrc]; [isTauri] is what
    [ProjectLoader.isTauri()] answers. *)
Definition convertFilePathToSrc (isTauri : bool) (filePath : string)
    (width height : Z) (projectDir : option string) : string :=
  if isTauri
     && negb (bool_decide (default "" projectDir = ""))
     && negb (bool_decide (filePath = ""))
  then createPlaceholder (str_or (last_segment filePath) "Layer") width height
  else
    let fallback :=
      let filename :=
        if bool_decide (filePath = "") then "Layer"
        else strip_image_extension (last_segment filePath) in
      createPlaceholder (str_or filename "Layer") width height in
    if negb (bool_decide (filePath = "")) && includes "assets/" filePath
    then
      let filename := last_segment filePath in
      if bool_decide (filename = "") then fallback
      else "/project-assets/" +:+ filename
    else fallback.

End ImageSource.

(** ** Further sample inputs *)

(** The page after two layers were added and the second was dragged onto
    the first. *)
Definition sample_page : Page.state :=
  perform (ReorderLayers "layer-2" "layer-1")
    (perform (AddLayer 2) (perform (AddLayer 1) initial_page)).

(** The two sample layers with the overlay hidden. *)
Definition overlay_hidden : list Layer.t :=
  [background; Layer.with_isVisible false overlay].

(** A clock that always reads the first instant of 2025, and a [trim]
    for names that carry no blanks at their ends. *)
Definition fixed_clock : Z → string := λ _, "2025-01-01T00:00:00.000Z".
Definition no_blanks : string → string := λ name, name.

(** Three presets in the order A, B, C. *)
Definition presetA : Preset.t := Preset.mk "A" "A" None (Some ∅) None None.
Definition presetB : Preset.t := Preset.mk "B" "B" None (Some ∅) None None.
Definition presetC : Preset.t := Preset.mk "C" "C" None (Some ∅) None None.

(** The preset that hides the overlay as the export dialog receives it,
    and a queue of one enabled and one disabled item for it. *)
Definition stored_hide_overlay : LayerPreset.t :=
  LayerPreset.mk "preset-1" "No overlay"
    (Some (<["bg" := true]> (<["fg" := false]> ∅)))
    "2025-01-01T00:00:00.000Z".

Definition queue : list ExportItem.t :=
  [ExportItem.mk "export-preset-1" "No overlay" stored_hide_overlay jpg 80 true;
   ExportItem.mk "export-preset-2" "Skipped" stored_hide_overlay png 90 false].

(** * Properties *)

(** ** Sorting *)

Section SortFacts.
Context {A : Type} (cmp : A → A → Z).

Lemma sort_insert_Permutation x l : sort_insert cmp x l ≡ₚ x :: l.
Proof.
  induction l as [|y l IH]; simpl; [done|].
  destruct (cmp x y <=? 0); [done|].
  rewrite IH. apply Permutation_swap.
Qed.

Lemma sort_Permutation l : sort cmp l ≡ₚ l.
Proof.
  induction l as [|x l IH]; simpl; [done|].
  by rewrite sort_insert_Permutation, IH.
Qed.

Lemma length_sort l : length (sort cmp l) = length l.
Proof. by rewrite sort_Permutation. Qed.

End SortFacts.

Section SortByKey.
Context {A : Type} (key : A → Z).

#[local] Abbreviation by_key := (λ a b : A, key a - key b).

Lemma sort_insert_ascending x l :
  ascending (key <$> l) → ascending (key <$> sort_insert by_key x l).
Proof.
  induction l as [|y l IH]; simpl.
  - intros _. split; [constructor | done].
  - intros [Hy Hl].
    destruct (Z.leb_spec (key x - key y) 0) as [Hle|Hgt]; simpl.
    + split; [|done].
      constructor; [lia|].
      eapply Forall_impl; [exact Hy|]. simpl; intros; lia.
    + split; [|by apply IH].
      assert (Hp : key <$> sort_insert by_key x l ≡ₚ key x :: (key <$> l)).
      { by rewrite sort_insert_Permutation. }
      rewrite Hp. constructor; [lia | done].
Qed.

Lemma sort_ascending l : ascending (key <$> sort by_key l).
Proof.
  induction l as [|x l IH]; simpl; [done|].
  by apply sort_insert_ascending.
Qed.

Lemma sort_of_ascending l : ascending (key <$> l) → sort by_key l = l.
Proof.
  induction l as [|x l IH]; simpl; [done|].
  intros [Hx Hl]. rewrite IH by done.
  destruct l as [|y l]; simpl; [done|].
  apply Forall_cons in Hx as [Hxy _].
  destruct (Z.leb_spec (key x - key y) 0); [done | lia].
Qed.

(** Stability: elements with the same key keep their relative order. *)
Lemma sort_insert_stable k x l :
  filter (λ a, key a = k) (sort_insert by_key x l)
  = filter (λ a, key a = k) (x :: l).
Proof.
  induction l as [|y l IH]; simpl; [done|].
  destruct (Z.leb_spec (key x - key y) 0) as [Hle|Hgt]; [done|].
  destruct (decide (key y = k)) as [Hy|Hy].
  - rewrite (filter_cons_True _ y) by done. rewrite IH.
    rewrite (filter_cons_False _ x) by lia.
    rewrite (filter_cons_False _ x) by lia.
    by rewrite (filter_cons_True _ y) by done.
  - rewrite (filter_cons_False _ y) by done. rewrite IH.
    destruct (decide (key x = k)) as [Hx|Hx].
    + rewrite !(filter_cons_True _ x) by done.
      by rewrite (filter_cons_False _ y) by done.
    + rewrite !(filter_cons_False _ x) by done.
      by rewrite (filter_cons_False _ y) by done.
Qed.

Lemma sort_stable k l :
  filter (λ a, key a = k) (sort by_key l) = filter (λ a, key a = k) l.
Proof.
  induction l as [|x l IH]; simpl; [done|].
  rewrite sort_insert_stable.
  destruct (decide (key x = k)).
  - rewrite !(filter_cons_True _ x) by done. by rewrite IH.
  - rewrite !(filter_cons_False _ x) by done. by rewrite IH.
Qed.

End SortByKey.

(** ** Array helpers *)

Lemma findIndex_Some {A} (p : A → bool) l i :
  findIndex p l = Some i ↔
  ∃ x, l !! i = Some x ∧ p x = true
       ∧ ∀ j y, l !! j = Some y → (j < i)%nat → p y ≠ true.
Proof.
  unfold findIndex. split.
  - intros H. apply fmap_Some in H as [[j x] [H ->]]. simpl.
    apply list_find_Some in H as (Hx & Hp & Hmin). eauto.
  - intros (x & Hx & Hp & Hmin). apply fmap_Some. exists (i, x). split; [|done].
    apply list_find_Some. naive_solver.
Qed.

Lemma findIndex_None {A} (p : A → bool) l :
  findIndex p l = None ↔ Forall (λ x, p x ≠ true) l.
Proof. unfold findIndex. rewrite fmap_None. apply list_find_None. Qed.

(** An id occurs in the list exactly when [findIndex] finds it. *)
Lemma findIndex_id_is_Some (id : string) (l : list Layer.t) :
  id ∈ Layer.id <$> l ↔
  is_Some (findIndex (λ layer, bool_decide (Layer.id layer = id)) l).
Proof.
  split.
  - intros Hin. destruct (findIndex _ l) eqn:E; [eauto|].
    apply findIndex_None in E.
    apply list_elem_of_fmap in Hin as (x & -> & Hx).
    rewrite Forall_forall in E. specialize (E x Hx).
    rewrite bool_decide_eq_true in E. done.
  - intros [i Hi]. apply findIndex_Some in Hi as (x & Hx & Hp & _).
    apply bool_decide_eq_true in Hp. subst id.
    apply list_elem_of_fmap. exists x. split; [done|].
    by eapply list_elem_of_lookup_2.
Qed.

Section Splice.
Context {A : Type}.
Implicit Types l : list A.

Lemma splice_insert_Permutation i x l : splice_insert i x l ≡ₚ x :: l.
Proof.
  unfold splice_insert. rewrite <- Permutation_middle.
  by rewrite take_drop.
Qed.

Lemma splice_insert_lookup i x l :
  (i ≤ length l)%nat → splice_insert i x l !! i = Some x.
Proof.
  intros Hi. unfold splice_insert.
  rewrite lookup_app_r by (rewrite length_take; lia).
  rewrite length_take. replace (i - i `min` length l)%nat with 0%nat by lia.
  done.
Qed.

(** Taking an element out and putting it back elsewhere permutes. *)
Lemma move_Permutation i j x l :
  l !! i = Some x → splice_insert j x (delete i l) ≡ₚ l.
Proof.
  intros Hx. rewrite splice_insert_Permutation.
  symmetry. by apply delete_Permutation.
Qed.
End Splice.

Lemma renumber_ids (l : list Layer.t) :
  Layer.id <$> imap (λ index layer, Layer.with_zIndex (Z.of_nat index) layer) l
  = Layer.id <$> l.
Proof.
  rewrite fmap_imap. unfold compose. simpl.
  change (imap (λ (n : nat) (x : Layer.t), Layer.id x) l)
    with (imap (const Layer.id) l).
  by rewrite imap_const.
Qed.

(** ** Page component *)

(** Where the layer states have an entry for a layer's id, or the id
    names nothing inherited, the engine reads what the typed definition
    reads. *)
Lemma Js_get_plain (states : gmap string bool) (layer : Layer.t) :
  Js.plain states layer →
  Js.get states (Layer.id layer) = Js.boolean <$> (states !! Layer.id layer).
Proof.
  unfold Js.plain, Js.get. intros [[b ->]|Hid]; [done|].
  destruct (states !! Layer.id layer); [done|].
  by rewrite bool_decide_eq_false_2.
Qed.

Lemma Js_handleApplyPreset_plain (layerStates : gmap string bool)
    (prev : list Layer.t) :
  Forall (Js.plain layerStates) prev →
  Js.handleApplyPreset layerStates prev
  = Js.of_layer <$> handleApplyPreset layerStates prev.
Proof.
  intros Hplain. unfold Js.handleApplyPreset, handleApplyPreset.
  rewrite <- list_fmap_compose. apply Forall_fmap_ext_1.
  eapply Forall_impl; [exact Hplain|]. intros layer Hl. simpl.
  rewrite (Js_get_plain _ _ Hl). unfold Js.of_layer, Js.with_isVisible.
  by destruct (layerStates !! Layer.id layer).
Qed.

(** What the claim says holds for the layers whose id names nothing
    inherited: such a layer keeps every field except [isVisible], which
    becomes the preset's value for its id when the preset has one and
    stays as it was otherwise; the list keeps its length, and an entry
    whose id belongs to no layer changes nothing. *)
Lemma handleApplyPreset_plain_ids (layerStates : gmap string bool)
    (prev : list Layer.t) :
  length (Js.handleApplyPreset layerStates prev) = length prev
  ∧ (∀ i layer, prev !! i = Some layer → Js.plain layerStates layer →
       Js.handleApplyPreset layerStates prev !! i
       = Some (Js.with_isVisible
                 (Js.boolean
                    (match layerStates !! Layer.id layer with
                     | Some visible => visible
                     | None => Layer.isVisible layer
                     end))
                 layer))
  ∧ (∀ stale visible, stale ∉ Layer.id <$> prev →
       Js.handleApplyPreset (<[stale := visible]> layerStates) prev
       = Js.handleApplyPreset layerStates prev).
Proof.
  split_and!.
  - unfold Js.handleApplyPreset. by rewrite length_fmap.
  - intros i layer Hi Hl. unfold Js.handleApplyPreset.
    rewrite list_lookup_fmap, Hi. simpl. rewrite (Js_get_plain _ _ Hl).
    by destruct (layerStates !! Layer.id layer).
  - intros stale visible Hstale. unfold Js.handleApplyPreset.
    apply list_fmap_ext. intros i layer Hi. unfold Js.get.
    rewrite lookup_insert_ne; [done|].
    intros ->. apply Hstale. apply list_elem_of_fmap. exists layer.
    split; [done|]. by eapply list_elem_of_lookup_2.
Qed.

(** C7 fails on the code.  The preset has an entry for the background
    only; the hidden layer whose id is "constructor" has none and should
    stay as it is.  The read [layerStates["constructor"]] finds the
    function every object inherits, [??] takes it for a value, and the
    layer's [isVisible] becomes that function, which counts as visible
    wherever the flag is tested. *)
Theorem handleApplyPreset_inherited_key :
  (<["bg" := true]> ∅ : gmap string bool) !! Layer.id constructor_layer = None
  ∧ Layer.isVisible constructor_layer = false
  ∧ Js.handleApplyPreset (<["bg" := true]> ∅) [background; constructor_layer]
    = [Js.of_layer background;
       Js.with_isVisible (Js.inherited "constructor") constructor_layer]
  ∧ Js.handleApplyPreset (<["bg" := true]> ∅) [background; constructor_layer]
    ≠ [Js.of_layer background; Js.of_layer constructor_layer]
  ∧ Js.truthy (Some (Js.inherited "constructor")) = true.
Proof. split_and!; [done | done | by vm_compute | by vm_compute | done]. Qed.

(** C9.  When both ids occur in the list, the dragged layer (the first
    one carrying [draggedId]) ends up at the index the target had, the ids
    of the result are a permutation of the ids before, and every layer's
    [zIndex] is its index.  When either id is missing the list comes back
    unchanged. *)
Theorem handleReorderLayers_spec (draggedId targetId : string)
    (prev : list Layer.t) :
  (draggedId ∈ Layer.id <$> prev → targetId ∈ Layer.id <$> prev →
     ∃ draggedIndex targetIndex draggedLayer,
       findIndex (λ layer, bool_decide (Layer.id layer = draggedId)) prev
       = Some draggedIndex
       ∧ findIndex (λ layer, bool_decide (Layer.id layer = targetId)) prev
         = Some targetIndex
       ∧ prev !! draggedIndex = Some draggedLayer
       ∧ handleReorderLayers draggedId targetId prev !! targetIndex
         = Some (Layer.with_zIndex (Z.of_nat targetIndex) draggedLayer)
       ∧ Layer.id <$> handleReorderLayers draggedId targetId prev
         ≡ₚ Layer.id <$> prev
       ∧ ∀ i layer,
           handleReorderLayers draggedId targetId prev !! i = Some layer →
           Layer.zIndex layer = Z.of_nat i)
  ∧ ((draggedId ∉ Layer.id <$> prev) ∨ (targetId ∉ Layer.id <$> prev) →
     handleReorderLayers draggedId targetId prev = prev).
Proof.
  split.
  - intros Hd Ht.
    apply findIndex_id_is_Some in Hd as [di Hdi].
    apply findIndex_id_is_Some in Ht as [ti Hti].
    pose proof Hdi as Hdi'. pose proof Hti as Hti'.
    apply findIndex_Some in Hdi' as (d & Hd & _).
    apply findIndex_Some in Hti' as (t & Ht & _).
    exists di, ti, d. unfold handleReorderLayers. rewrite Hdi, Hti, Hd.
    split_and!; try done.
    + rewrite list_lookup_imap, splice_insert_lookup; [reflexivity|].
      rewrite length_delete by eauto.
      apply lookup_lt_Some in Ht. apply lookup_lt_Some in Hd. lia.
    + rewrite renumber_ids. by rewrite move_Permutation.
    + intros i layer Hi. rewrite list_lookup_imap in Hi.
      apply fmap_Some in Hi as (l0 & _ & ->). done.
  - intros Habs. unfold handleReorderLayers.
    destruct (findIndex _ prev) as [di|] eqn:Hdi; [|done].
    destruct (findIndex (λ layer, bool_decide (Layer.id layer = targetId)) prev)
      as [ti|] eqn:Hti; [|done].
    exfalso. destruct Habs as [Habs|Habs];
      apply Habs, findIndex_id_is_Some; eauto.
Qed.

(** Dragging the overlay onto the background puts it at index 0. *)
Lemma handleReorderLayers_spec_witness :
  "fg" ∈ Layer.id <$> [background; overlay]
  ∧ "bg" ∈ Layer.id <$> [background; overlay]
  ∧ ∃ draggedIndex targetIndex draggedLayer,
      findIndex (λ layer, bool_decide (Layer.id layer = "fg"))
        [background; overlay] = Some draggedIndex
      ∧ findIndex (λ layer, bool_decide (Layer.id layer = "bg"))
          [background; overlay] = Some targetIndex
      ∧ [background; overlay] !! draggedIndex = Some draggedLayer
      ∧ handleReorderLayers "fg" "bg" [background; overlay] !! targetIndex
        = Some (Layer.with_zIndex (Z.of_nat targetIndex) draggedLayer)
      ∧ Layer.id <$> handleReorderLayers "fg" "bg" [background; overlay]
        ≡ₚ Layer.id <$> [background; overlay]
      ∧ ∀ i layer,
          handleReorderLayers "fg" "bg" [background; overlay] !! i = Some layer →
          Layer.zIndex layer = Z.of_nat i.
Proof.
  assert (Hfg : "fg" ∈ Layer.id <$> [background; overlay]).
  { simpl. apply elem_of_cons. right. apply elem_of_cons. by left. }
  assert (Hbg : "bg" ∈ Layer.id <$> [background; overlay]).
  { simpl. apply elem_of_cons. by left. }
  split_and!; [exact Hfg | exact Hbg |].
  exact (proj1 (handleReorderLayers_spec "fg" "bg" [background; overlay]) Hfg Hbg).
Defined.

(** With unique ids, filtering an id out removes at most one layer. *)
Lemma filter_ne_unique (id : string) (l : list Layer.t) :
  NoDup (Layer.id <$> l) →
  ((id ∉ Layer.id <$> l) ∧ filter (λ layer, Layer.id layer ≠ id) l = l)
  ∨ (∃ before removed after,
       l = before ++ removed :: after ∧ Layer.id removed = id
       ∧ filter (λ layer, Layer.id layer ≠ id) l = before ++ after).
Proof.
  induction l as [|x l IH]; simpl.
  - intros _. left. split; [apply not_elem_of_nil | done].
  - intros Hnd. apply NoDup_cons in Hnd as [Hx Hnd].
    destruct (decide (Layer.id x = id)) as [Heq|Hne].
    + right. exists [], x, l. split_and!; [done..|].
      rewrite filter_cons_False by (intros ?; done). simpl.
      subst id. clear IH Hnd. induction l as [|y l IHl]; [done|].
      simpl in Hx. apply not_elem_of_cons in Hx as [Hy Hx].
      rewrite filter_cons_True by done. f_equal. by apply IHl.
    + rewrite filter_cons_True by done.
      destruct (IH Hnd) as [[Hni Hf]|(b & r & a & -> & Hr & Hf)].
      * left. split; [|by rewrite Hf].
        apply not_elem_of_cons. split; [done|done].
      * right. exists (x :: b), r, a. split_and!; [done..|].
        by rewrite Hf.
Qed.

(** What [handleDeleteLayer] leaves of a list of two or more layers,
    whether or not ids repeat. *)
Lemma handleDeleteLayer_layers (id : string) (st : Editor.state) :
  (2 ≤ length (Editor.layers st))%nat →
  Editor.layers (handleDeleteLayer id st)
  = filter (λ layer, Layer.id layer ≠ id) (Editor.layers st).
Proof.
  intros H2. unfold handleDeleteLayer.
  destruct (Nat.leb_spec (length (Editor.layers st)) 1); [lia | done].
Qed.

(** C10, as stated, fails: two layers that share an id are both removed,
    and the non-empty list becomes empty. *)
Lemma handleDeleteLayer_duplicate_ids :
  Editor.layers editor_duplicate_ids ≠ []
  ∧ (2 ≤ length (Editor.layers editor_duplicate_ids))%nat
  ∧ Editor.layers (handleDeleteLayer "a" editor_duplicate_ids) = [].
Proof. split_and!; [done | simpl; lia | reflexivity]. Qed.

(** C10, amended.  Deleting is a no-op when the list has at most one
    layer.  With two or more layers the result is the list without every
    layer that carries the id.  For a layer list with unique ids that is
    the list without the one layer carrying the id (or the list itself
    when no layer carries it), and deleting never empties a non-empty
    list. *)
Theorem handleDeleteLayer_spec (id : string) (st : Editor.state) :
  ((length (Editor.layers st) ≤ 1)%nat → handleDeleteLayer id st = st)
  ∧ ((2 ≤ length (Editor.layers st))%nat →
       Editor.layers (handleDeleteLayer id st)
       = filter (λ layer, Layer.id layer ≠ id) (Editor.layers st))
  ∧ (NoDup (Layer.id <$> Editor.layers st) →
       ((2 ≤ length (Editor.layers st))%nat →
          ((id ∉ Layer.id <$> Editor.layers st)
           ∧ Editor.layers (handleDeleteLayer id st) = Editor.layers st)
          ∨ (∃ before removed after,
               Editor.layers st = before ++ removed :: after
               ∧ Layer.id removed = id
               ∧ Editor.layers (handleDeleteLayer id st) = before ++ after))
       ∧ (Editor.layers st ≠ [] → Editor.layers (handleDeleteLayer id st) ≠ [])).
Proof.
  assert (Hsmall : (length (Editor.layers st) ≤ 1)%nat →
                   handleDeleteLayer id st = st).
  { intros H1. unfold handleDeleteLayer.
    destruct (Nat.leb_spec (length (Editor.layers st)) 1); [done | lia]. }
  split_and!.
  - exact Hsmall.
  - apply handleDeleteLayer_layers.
  - intros Hnd. split.
    + intros H2. rewrite handleDeleteLayer_layers by done.
      by apply filter_ne_unique.
    + intros Hne.
      destruct (decide (length (Editor.layers st) ≤ 1)%nat) as [H1|H2].
      * by rewrite Hsmall.
      * rewrite handleDeleteLayer_layers by lia.
        destruct (filter_ne_unique id _ Hnd)
          as [[_ ->]|(b & r & a & E & _ & ->)]; [done|].
        intros Hnil. apply (f_equal length) in E, Hnil.
        rewrite length_app in *. simpl in *. lia.
Qed.

(** Deleting the overlay from the two sample layers leaves the
    background. *)
Lemma handleDeleteLayer_spec_witness :
  NoDup (Layer.id <$> Editor.layers editor_with_preset)
  ∧ (2 ≤ length (Editor.layers editor_with_preset))%nat
  ∧ Editor.layers editor_with_preset ≠ []
  ∧ Editor.layers (handleDeleteLayer "fg" editor_with_preset) = [background]
  ∧ Editor.layers (handleDeleteLayer "fg" editor_with_preset) ≠ [].
Proof.
  assert (Hnd : NoDup (Layer.id <$> Editor.layers editor_with_preset)).
  { simpl. apply NoDup_cons. split.
    - intros H. apply elem_of_cons in H as [H|H]; [discriminate|].
      by apply not_elem_of_nil in H.
    - apply NoDup_cons. split; [apply not_elem_of_nil | apply NoDup_nil_2]. }
  assert (H2 : (2 ≤ length (Editor.layers editor_with_preset))%nat)
    by (simpl; lia).
  assert (Hne : Editor.layers editor_with_preset ≠ []) by discriminate.
  destruct (handleDeleteLayer_spec "fg" editor_with_preset)
    as (_ & Hfilter & Hunique).
  split_and!; [exact Hnd | exact H2 | exact Hne | |].
  - rewrite (Hfilter H2). reflexivity.
  - exact (proj2 (Hunique Hnd) Hne).
Defined.

(** ** Runtime model converter *)

(** Sorting commutes with a map that respects the comparator. *)
Lemma sort_fmap_cmp {A B : Type} (f : A → B) (cmp : A → A → Z)
    (cmp' : B → B → Z) (l : list A) :
  (∀ a b, cmp' (f a) (f b) = cmp a b) →
  sort cmp' (f <$> l) = f <$> sort cmp l.
Proof.
  intros Hcmp. induction l as [|x l IH]; [done|].
  rewrite fmap_cons. cbn [sort]. rewrite IH.
  generalize (sort cmp l) as s. clear IH.
  induction s as [|y s IHs]; [done|].
  rewrite fmap_cons. cbn [sort_insert]. rewrite Hcmp.
  destruct (cmp x y <=? 0); [done|].
  rewrite fmap_cons. by rewrite IHs.
Qed.

Lemma mapM_id_fmap {A B : Type} (f : A → option B) (l : list A) :
  mapM (λ o : option B, o) (f <$> l) = mapM f l.
Proof.
  induction l as [|x l IH]; [done|].
  rewrite fmap_cons. cbn [mapM]. by rewrite IH.
Qed.

Lemma mapM_total {A B : Type} (g : A → B) (l : list A) :
  mapM (λ x, Some (g x)) l = Some (g <$> l).
Proof.
  apply mapM_Some. induction l as [|x l IH]; constructor; done.
Qed.

Section RoundTrip.
Variable convertFilePathToSrc : string → Z → Z → option string → option string.

(** For a valid layer the callback substitutes no default, whatever the
    position. *)
Lemma toRuntimeLayer_valid dir index layer :
  valid_layer layer →
  toRuntimeLayer convertFilePathToSrc dir index (StoredLayer.of_project layer)
  = runtimeLayer_of convertFilePathToSrc dir layer.
Proof.
  intros (Hid & Hname & Hpath & Hw & Hh). destruct layer as [i n f w h v z].
  unfold toRuntimeLayer, runtimeLayer_of, str_or. simpl in *.
  rewrite !bool_decide_eq_false_2 by done.
  destruct (Z.ltb_spec 0 w); [|lia]. destruct (Z.ltb_spec 0 h); [|lia]. done.
Qed.

(** The converter on a valid list: the argument array ends up sorted, and
    the runtime layers are those of the sorted layers. *)
Lemma convert_valid L dir :
  Forall valid_layer L →
  convertProjectLayersToRuntimeLayers convertFilePathToSrc
    (StoredLayer.of_project <$> L) dir
  = (StoredLayer.of_project <$> sort by_z_index L,
     mapM (runtimeLayer_of convertFilePathToSrc dir) (sort by_z_index L)).
Proof.
  intros Hv. unfold convertProjectLayersToRuntimeLayers.
  rewrite (sort_fmap_cmp StoredLayer.of_project by_z_index) by done.
  f_equal.
  assert (Hs : Forall valid_layer (sort by_z_index L))
    by (by rewrite sort_Permutation).
  revert Hs. generalize (sort by_z_index L) as S. intros S HS.
  rewrite imap_fmap.
  rewrite (imap_ext _ (λ _, runtimeLayer_of convertFilePathToSrc dir) S).
  - change (imap (λ _ : nat, ?f)) with (imap (const f)).
    rewrite imap_const. apply mapM_id_fmap.
  - intros i x Hx. unfold compose. apply toRuntimeLayer_valid.
    rewrite Forall_forall in HS. apply HS. by eapply list_elem_of_lookup_2.
Qed.

End RoundTrip.

Lemma round_trip_sorts L dir :
  Forall valid_layer L →
  round_trip identity_resolver L dir = Some (sort by_z_index L).
Proof.
  intros Hv. unfold round_trip. rewrite convert_valid by done. simpl.
  unfold runtimeLayer_of, identity_resolver. simpl.
  rewrite (mapM_total
             (λ layer, Layer.mk (ProjectLayer.id layer) (ProjectLayer.name layer)
                         (ProjectLayer.file_path layer)
                         (ProjectLayer.file_path layer)
                         (ProjectLayer.width layer) (ProjectLayer.height layer)
                         (ProjectLayer.is_visible layer)
                         (ProjectLayer.z_index layer))).
  simpl. f_equal. unfold convertRuntimeLayersToProjectLayers.
  rewrite <- list_fmap_compose.
  rewrite <- (list_fmap_id (sort by_z_index L)) at 2.
  apply list_fmap_ext. by intros i [] _.
Qed.

Lemma legacy_round_trip_sorts L :
  LegacyProjectLoader.round_trip legacy_identity_resolver L
  = Some (sort by_z_index L).
Proof.
  unfold LegacyProjectLoader.round_trip,
    LegacyProjectLoader.convertProjectLayersToRuntimeLayers,
    legacy_identity_resolver. simpl.
  rewrite (mapM_total
             (λ layer, Layer.mk (ProjectLayer.id layer) (ProjectLayer.name layer)
                         (ProjectLayer.file_path layer)
                         (ProjectLayer.file_path layer)
                         (ProjectLayer.width layer) (ProjectLayer.height layer)
                         (ProjectLayer.is_visible layer)
                         (ProjectLayer.z_index layer))).
  simpl. f_equal. unfold convertRuntimeLayersToProjectLayers.
  rewrite <- list_fmap_compose.
  rewrite <- (list_fmap_id (sort by_z_index L)) at 2.
  apply list_fmap_ext. by intros i [] _.
Qed.

(** C2, as stated, fails: a valid list stored front to back comes back in
    the opposite order. *)
Lemma round_trip_reorders :
  Forall valid_layer unsorted_file
  ∧ round_trip identity_resolver unsorted_file None = Some sorted_file
  ∧ round_trip identity_resolver unsorted_file None ≠ Some unsorted_file.
Proof.
  split_and!.
  - repeat constructor; simpl; (done || lia).
  - reflexivity.
  - vm_compute. discriminate.
Qed.

(** C2, amended.  For a valid layer list (no empty id, name or file path,
    positive width and height) and identity asset resolution, the round
    trip yields the list stably sorted by ascending [z_index], which is
    also what the argument array itself holds after the call: a
    permutation of the list, layers unchanged, layers of equal [z_index]
    in their stored order.  It yields the list itself exactly when the
    list is already in ascending [z_index] order.  The earlier copy of
    the loader gives the same result. *)
Theorem round_trip_spec (L : list ProjectLayer.t) (dir : option string) :
  Forall valid_layer L →
  ∃ result,
    round_trip identity_resolver L dir = Some result
    ∧ (convertProjectLayersToRuntimeLayers identity_resolver
         (StoredLayer.of_project <$> L) dir).1
      = StoredLayer.of_project <$> result
    ∧ result ≡ₚ L
    ∧ ascending (ProjectLayer.z_index <$> result)
    ∧ (∀ z, filter (λ layer, ProjectLayer.z_index layer = z) result
            = filter (λ layer, ProjectLayer.z_index layer = z) L)
    ∧ (ascending (ProjectLayer.z_index <$> L) ↔ result = L)
    ∧ LegacyProjectLoader.round_trip legacy_identity_resolver L = Some result.
Proof.
  intros Hv. exists (sort by_z_index L). split_and!.
  - by apply round_trip_sorts.
  - by rewrite convert_valid.
  - apply sort_Permutation.
  - apply (sort_ascending ProjectLayer.z_index).
  - intros z. apply (sort_stable ProjectLayer.z_index).
  - split.
    + apply (sort_of_ascending ProjectLayer.z_index).
    + intros <-. apply (sort_ascending ProjectLayer.z_index).
  - apply legacy_round_trip_sorts.
Qed.

(** The sample list stored back to front round-trips to itself. *)
Lemma round_trip_spec_witness :
  Forall valid_layer sorted_file
  ∧ ascending (ProjectLayer.z_index <$> sorted_file)
  ∧ round_trip identity_resolver sorted_file None = Some sorted_file.
Proof.
  assert (Hv : Forall valid_layer sorted_file).
  { repeat constructor; simpl; (discriminate || lia). }
  assert (Ha : ascending (ProjectLayer.z_index <$> sorted_file)).
  { simpl. repeat constructor. lia. }
  split_and!; [exact Hv | exact Ha |].
  destruct (round_trip_spec sorted_file None Hv)
    as (result & Hresult & _ & _ & _ & _ & Hiff & _).
  rewrite Hresult. f_equal. exact (proj1 Hiff Ha).
Defined.

(** ** Validation *)

#[local] Arguments field : simpl never.

Lemma truthy_member_field key (v : jsval) :
  truthy v = true → member key v = Normal (field key v).
Proof. destruct v as [[]|]; simpl; done. Qed.

(** On every parsed document other than [null] the validator of the
    newer loader and the contract agree. *)
Lemma validate_first_violation (doc : json) :
  doc ≠ JNull →
  validate doc =
  match first_violation doc with
  | Some c => Throw (error_of c)
  | None => Normal doc
  end.
Proof.
  intros Hnull. unfold first_violation, checks_in_order, validate.
  assert (Hm : ∀ key, member key (Some doc) = Normal (field key (Some doc)))
    by (by destruct doc).
  rewrite !Hm. simpl mbind.
  unfold list_find; simpl. unfold canvas_dim.
  destruct (truthy (field "version" (Some doc))) eqn:Hv; simpl; [|reflexivity].
  destruct (truthy (field "canvas" (Some doc))) eqn:Hc; simpl; [|reflexivity].
  rewrite !(truthy_member_field _ _ Hc). simpl.
  destruct (as_number (field "width" _)) as [w|] eqn:Hw; simpl; [|reflexivity].
  destruct (as_number (field "height" _)) as [h|] eqn:Hh; simpl; [|reflexivity].
  destruct (isArray (field "layers" (Some doc))) eqn:Hl; simpl; [|reflexivity].
  destruct (isArray (field "presets" (Some doc))) eqn:Hp; simpl; [|reflexivity].
  destruct (Qle_bool w 0) eqn:Hw0; simpl; [reflexivity|].
  destruct (Qle_bool h 0) eqn:Hh0; simpl; [reflexivity|].
  destruct (Qle_bool w 50000) eqn:Hw5; simpl; [|reflexivity].
  destruct (Qle_bool h 50000) eqn:Hh5; simpl; reflexivity.
Qed.

(** Distinct checks fail with distinct errors. *)
Lemma error_of_inj c1 c2 : error_of c1 = error_of c2 → c1 = c2.
Proof. destruct c1, c2; simpl; intros H; try done; discriminate. Qed.

(** [first_violation] is the violated check that every earlier check in
    the list lets through. *)
Lemma first_violation_first doc c :
  first_violation doc = Some c ↔
  passes c doc = false
  ∧ ∃ i, checks_in_order !! i = Some c
         ∧ ∀ j c', checks_in_order !! j = Some c' → (j < i)%nat →
                   passes c' doc = true.
Proof.
  unfold first_violation. rewrite fmap_Some. split.
  - intros [[i c'] [H ->]]. apply list_find_Some in H as (Hi & Hp & Hmin).
    simpl. split; [done|]. exists i. split; [done|].
    intros j c'' Hj Hlt. specialize (Hmin j c'' Hj Hlt).
    by destruct (passes c'' doc).
  - intros (Hp & i & Hi & Hmin). exists (i, c). split; [|done].
    apply list_find_Some. split_and!; [done..|].
    intros j c' Hj Hlt. rewrite (Hmin j c' Hj Hlt). done.
Qed.

(** The validator of the newer loader does what the claim says.  A file
    that cannot be read or parsed is rejected before any check.  For every
    parsed document other than [null] it rejects with the error of the
    first check, in the order version, canvas, layers, presets, positive
    size, size limit, that the document violates, and resolves with the
    document itself when it violates none.  On the document [null] the
    version check itself throws, and the file is rejected with the
    engine's error. *)
Lemma newer_loader_follows_contract :
  loadProjectFile ReadFailed = RejectedRead
  ∧ loadProjectFile (Text None) = RejectedParse SyntaxError
  ∧ (∀ doc, doc ≠ JNull →
       loadProjectFile (Text (Some doc)) =
       match first_violation doc with
       | Some c => RejectedParse (error_of c)
       | None => Resolved doc
       end)
  ∧ loadProjectFile (Text (Some JNull)) = RejectedParse (TypeError "version").
Proof.
  split_and!; try reflexivity.
  intros doc Hnull. simpl. rewrite validate_first_violation by done.
  by destruct (first_violation doc).
Qed.

(** C3 fails on the code.  The project of version "1.0" with a canvas of
    width 0 violates the positive-size check, and the newer loader
    rejects it for that.  The earlier copy of the loader, with its single
    presence test, resolves with it, and the Tauri open path, which
    parses the file itself and calls no validator, hands the page a
    canvas of width 0. *)
Theorem unvalidated_open_paths
    (assetUrl : string → string → option string)
    (encodeURIComponent : string → string) (projectDir fileName : string)
    (st : Page.state) :
  first_violation (project_doc "1.0" 0 1080 [] []) = Some CanvasPositive
  ∧ loadProjectFile (Text (Some (project_doc "1.0" 0 1080 [] [])))
    = RejectedParse (Error "Canvas dimensions must be positive")
  ∧ LegacyProjectLoader.loadProjectFile
      (Text (Some (project_doc "1.0" 0 1080 [] [])))
    = Resolved (project_doc "1.0" 0 1080 [] [])
  ∧ Editor.canvasWidth
      (Page.editor
         (perform
            (loadTauriProject assetUrl encodeURIComponent
               (ProjectFile.mk "1.0" (ProjectFile.mkCanvas 0 1080) [] [])
               projectDir fileName)
            st))
    = 0.
Proof. split_and!; reflexivity. Qed.

(** ** Compositing *)

Lemma painted_call_drawImage image x y w h c :
  Canvas.painted (Canvas.call (drawImage image x y w h) c)
  = Canvas.painted c ++ [image].
Proof. unfold Canvas.painted, Canvas.call. simpl. by rewrite omap_app. Qed.

Lemma painted_call_clearRect x y w h c :
  Canvas.painted (Canvas.call (clearRect x y w h) c) = Canvas.painted c.
Proof.
  unfold Canvas.painted, Canvas.call. simpl. rewrite omap_app. simpl.
  by rewrite app_nil_r.
Qed.

Lemma painted_call_fillRect s x y w h c :
  Canvas.painted (Canvas.call (fillRect s x y w h) c) = Canvas.painted c.
Proof.
  unfold Canvas.painted, Canvas.call. simpl. rewrite omap_app. simpl.
  by rewrite app_nil_r.
Qed.

Lemma settles_all_length n schedule :
  settles_all n schedule → length schedule = n.
Proof.
  unfold settles_all. intros H. apply Permutation_length in H.
  by rewrite length_fmap, length_seq in H.
Qed.

Lemma settles_all_in_range n schedule :
  settles_all n schedule → Forall (λ e, (event_index e < n)%nat) schedule.
Proof.
  unfold settles_all. intros H. apply Forall_forall. intros e He.
  assert (Hin : event_index e ∈ seq 0 n).
  { rewrite <- H. apply list_elem_of_fmap. eauto. }
  apply elem_of_seq in Hin. lia.
Qed.

Lemma visible_sorted_nil layers :
  Forall (λ layer, Layer.isVisible layer = false) layers →
  visible_sorted layers = [].
Proof.
  intros H. unfold visible_sorted.
  replace (filter (λ layer, Layer.isVisible layer = true) layers)
    with (@nil Layer.t); [done|].
  symmetry. induction H as [|x l Hx _ IH]; [done|].
  rewrite filter_cons_False by congruence. done.
Qed.

Section CompositeFacts.
Context {Output : Type}.
Variable prepare : Canvas.t → Canvas.t.
Variable place : Layer.t → Rect.
Variable finish : Canvas.t → Output.
Variable canvasWidth canvasHeight : Z.
Variable visibleLayers : list Layer.t.

#[local] Abbreviation run :=
  (composite prepare place finish canvasWidth canvasHeight visibleLayers).
#[local] Abbreviation after :=
  (canvas_after prepare place canvasWidth canvasHeight).
#[local] Abbreviation n := (length visibleLayers).

Lemma composite_snoc evs e :
  run (evs ++ [e]) = handle place finish visibleLayers (run evs) e.
Proof. unfold composite. by rewrite foldl_app. Qed.

(** While images are outstanding the counter equals the number of events
    handled, the canvas holds the loaded layers in completion order, and
    the promise is pending; the event that brings the counter to
    [totalImages] hands the canvas out and resolves. *)
Lemma composite_progress evs :
  n ≠ 0%nat →
  Forall (λ e, (event_index e < n)%nat) evs →
  (length evs ≤ n)%nat →
  Run.loadedImages (run evs) = length evs
  ∧ Run.canvas (run evs) = after (decoded visibleLayers evs)
  ∧ ((length evs < n)%nat →
       Run.promise (run evs) = Pending ∧ Run.outputs (run evs) = [])
  ∧ (length evs = n →
       Run.promise (run evs) = Fulfilled
       ∧ Run.outputs (run evs) = [finish (Run.canvas (run evs))]).
Proof.
  intros Hn. induction evs as [|e evs IH] using rev_ind; intros Hrange Hlen.
  - unfold composite, begin. simpl.
    destruct (Nat.eqb_spec n 0); [done|]. simpl.
    split_and!; [done|done|done|].
    intros Heq. by destruct Hn.
  - rewrite length_app in *. simpl in *.
    apply Forall_app in Hrange as [Hrange He].
    rewrite Forall_singleton in He.
    destruct IH as (Hcount & Hpaint & Hpending & _); [done|lia|].
    destruct Hpending as [Hp Ho]; [lia|].
    rewrite composite_snoc. unfold handle.
    destruct (lookup_lt_is_Some_2 visibleLayers (event_index e) He)
      as [layer Hl].
    rewrite Hl. unfold decoded. rewrite omap_app.
    fold (decoded visibleLayers evs).
    assert (Hstep : ∀ canvas,
      let r := checkComplete finish visibleLayers
                 (Run.mk canvas (S (Run.loadedImages (run evs)))
                    (Run.outputs (run evs)) (Run.promise (run evs))) in
      Run.loadedImages r = (length evs + 1)%nat
      ∧ Run.canvas r = canvas
      ∧ ((length evs + 1 < n)%nat →
           Run.promise r = Pending ∧ Run.outputs r = [])
      ∧ ((length evs + 1 = n)%nat →
           Run.promise r = Fulfilled
           ∧ Run.outputs r = [finish (Run.canvas r)])).
    { intros canvas. unfold checkComplete. cbn [Run.loadedImages].
      rewrite Hcount, Ho, Hp.
      destruct (Nat.eqb_spec (S (length evs)) n) as [Heq|Hne]; simpl;
        (split_and!; [lia | done | intros; first [lia | done]
                     | intros; first [lia | done]]). }
    destruct e as [i|i]; cbn [event_index] in *;
      unfold img_onload, img_onerror.
    + destruct (Hstep (draw layer (place layer) (Run.canvas (run evs))))
        as (H1 & H2 & H3 & H4).
      split_and!; [done| |done|done].
      rewrite H2, Hpaint. simpl. rewrite Hl. simpl.
      unfold canvas_after. by rewrite foldl_app.
    + destruct (Hstep (Run.canvas (run evs))) as (H1 & H2 & H3 & H4).
      split_and!; [done| |done|done].
      rewrite H2, Hpaint. simpl. by rewrite app_nil_r.
Qed.

Lemma composite_nothing_to_draw :
  visibleLayers = [] →
  run [] = Run.mk (prepare (Canvas.mk canvasWidth canvasHeight [])) 0
             [finish (prepare (Canvas.mk canvasWidth canvasHeight []))]
             Fulfilled.
Proof. intros E. unfold composite, begin. rewrite E. done. Qed.

(** The export is a join: once every image has reported, in whatever
    order and with whatever outcome, the promise is fulfilled and the
    canvas has been handed out once; before that it is pending. *)
Lemma composite_joins schedule :
  settles_all n schedule →
  Run.promise (run schedule) = Fulfilled
  ∧ Run.outputs (run schedule) = [finish (Run.canvas (run schedule))]
  ∧ Run.canvas (run schedule) = after (decoded visibleLayers schedule)
  ∧ ∀ k, (k < length schedule)%nat →
         Run.promise (run (take k schedule)) = Pending.
Proof.
  intros Hs. pose proof (settles_all_length _ _ Hs) as Hlen.
  pose proof (settles_all_in_range _ _ Hs) as Hrange.
  destruct (decide (n = 0%nat)) as [H0|H0].
  - rewrite H0 in Hlen. apply nil_length_inv in Hlen. subst schedule.
    apply nil_length_inv in H0. rewrite (composite_nothing_to_draw H0).
    simpl. split_and!; try done.
    intros k Hk. simpl in Hk. lia.
  - destruct (composite_progress schedule H0 Hrange) as (_ & Hp & _ & Hdone);
      [lia|].
    destruct (Hdone Hlen) as [Hf Ho]. split_and!; try done.
    intros k Hk.
    destruct (composite_progress (take k schedule) H0) as (_ & _ & Hpend & _).
    + by apply Forall_take.
    + rewrite length_take. lia.
    + apply Hpend. rewrite length_take. lia.
Qed.

Lemma painted_canvas_after drawn :
  Canvas.painted (after drawn)
  = Canvas.painted (prepare (Canvas.mk canvasWidth canvasHeight [])) ++ drawn.
Proof.
  unfold canvas_after. induction drawn as [|layer drawn IH] using rev_ind.
  - by rewrite app_nil_r.
  - rewrite foldl_app. simpl. unfold draw at 1.
    rewrite painted_call_drawImage, IH. by rewrite app_assoc.
Qed.

End CompositeFacts.



(** C8.  With no visible layer, each export path hands out at once a
    canvas of exactly [canvasWidth] by [canvasHeight] on which no layer is
    painted (cleared for PNG and for the export dialog, filled white for
    JPG), and its promise is fulfilled; no image is created, so no event
    is awaited. *)
Theorem composite_empty (context : TaskContext.t) (filename : option string)
    (quality : option Z) :
  Forall (λ layer, Layer.isVisible layer = false) (TaskContext.layers context) →
  let w := TaskContext.canvasWidth context in
  let h := TaskContext.canvasHeight context in
  handleQuickExportPNG context filename []
  = Run.mk (Canvas.mk w h [clearRect 0 0 w h]) 0
      [mkDownload (Canvas.mk w h [clearRect 0 0 w h])
         (default "canvas-export" filename) "png" 100]
      Fulfilled
  ∧ handleQuickExportJPG context filename quality []
    = Run.mk (Canvas.mk w h [fillRect "white" 0 0 w h]) 0
        [mkDownload (Canvas.mk w h [fillRect "white" 0 0 w h])
           (default "canvas-export" filename) "jpg" (default 90 quality)]
        Fulfilled
  ∧ captureCanvas (TaskContext.layers context) w h None []
    = Run.mk (Canvas.mk w h [clearRect 0 0 w h]) 0
        [Canvas.mk w h [clearRect 0 0 w h]] Fulfilled
  ∧ Canvas.painted (Canvas.mk w h [clearRect 0 0 w h]) = []
  ∧ Canvas.painted (Canvas.mk w h [fillRect "white" 0 0 w h]) = [].
Proof.
  intros Hnone w h. apply visible_sorted_nil in Hnone.
  unfold handleQuickExportPNG, handleQuickExportJPG, captureCanvas.
  rewrite !composite_nothing_to_draw by done. done.
Qed.

(** A context whose only layer is hidden exports a blank 1920 by 1080
    canvas. *)
Lemma composite_empty_witness :
  Forall (λ layer, Layer.isVisible layer = false) (TaskContext.layers hidden_only)
  ∧ Run.promise (handleQuickExportPNG hidden_only None []) = Fulfilled
  ∧ Run.outputs (handleQuickExportPNG hidden_only None [])
    = [mkDownload (Canvas.mk 1920 1080 [clearRect 0 0 1920 1080])
         "canvas-export" "png" 100].
Proof.
  assert (Hnone : Forall (λ layer, Layer.isVisible layer = false)
                    (TaskContext.layers hidden_only)).
  { repeat constructor. }
  destruct (composite_empty hidden_only None None Hnone) as (Hpng & _).
  split_and!; [exact Hnone | by rewrite Hpng | by rewrite Hpng].
Defined.

(** C5.  Whatever the order in which the images report and whichever of
    them fail, once every image has reported the quick export is
    fulfilled, having handed its canvas to [downloadCanvas] exactly once.
    The canvas carries the layers that loaded, so a layer whose image
    failed is left out, and until the last report the promise is
    pending. *)
Theorem export_joins_decodes (context : TaskContext.t)
    (filename : option string) (schedule : list ImageEvent) :
  let visibleLayers := visible_sorted (TaskContext.layers context) in
  settles_all (length visibleLayers) schedule →
  Run.promise (handleQuickExportPNG context filename schedule) = Fulfilled
  ∧ Run.outputs (handleQuickExportPNG context filename schedule)
    = [mkDownload (Run.canvas (handleQuickExportPNG context filename schedule))
         (default "canvas-export" filename) "png" 100]
  ∧ Canvas.painted (Run.canvas (handleQuickExportPNG context filename schedule))
    = decoded visibleLayers schedule
  ∧ (∀ k, (k < length schedule)%nat →
       Run.promise (handleQuickExportPNG context filename (take k schedule))
       = Pending).
Proof.
  intros visibleLayers Hs. unfold handleQuickExportPNG. cbv zeta.
  fold visibleLayers.
  destruct (composite_joins
              (Canvas.call (clearRect 0 0 (TaskContext.canvasWidth context)
                              (TaskContext.canvasHeight context)))
              (fit (TaskContext.canvasWidth context)
                 (TaskContext.canvasHeight context))
              (λ canvas,
                 mkDownload canvas (default "canvas-export" filename) "png" 100)
              (TaskContext.canvasWidth context)
              (TaskContext.canvasHeight context)
              visibleLayers schedule Hs) as (Hp & Ho & Hc & Hk).
  split_and!; [exact Hp | exact Ho | | exact Hk].
  rewrite Hc, painted_canvas_after. by rewrite painted_call_clearRect.
Qed.

Lemma overlay_fails_settles : settles_all 2 [onerror 1%nat; onload 0%nat].
Proof. unfold settles_all. simpl. apply Permutation_swap. Qed.

(** The overlay fails first, then the background loads: the export is
    fulfilled after the second event with only the background painted. *)
Lemma export_joins_decodes_witness :
  settles_all (length (visible_sorted (TaskContext.layers two_layers)))
    [onerror 1%nat; onload 0%nat]
  ∧ Run.promise (handleQuickExportPNG two_layers None [onerror 1%nat; onload 0%nat])
    = Fulfilled
  ∧ Canvas.painted
      (Run.canvas (handleQuickExportPNG two_layers None [onerror 1%nat; onload 0%nat]))
    = [background]
  ∧ Run.promise (handleQuickExportPNG two_layers None [onerror 1%nat]) = Pending.
Proof.
  assert (Hs : settles_all (length (visible_sorted (TaskContext.layers two_layers)))
                 [onerror 1%nat; onload 0%nat]).
  { exact overlay_fails_settles. }
  destruct (export_joins_decodes two_layers None [onerror 1%nat; onload 0%nat] Hs)
    as (Hp & _ & Hpaint & Hpending).
  split_and!; [exact Hs | exact Hp | exact Hpaint |].
  exact (Hpending 1%nat (le_n 2)).
Defined.

Lemma overlay_first_settles : settles_all 2 [onload 1%nat; onload 0%nat].
Proof. unfold settles_all. simpl. apply Permutation_swap. Qed.

(** C1 fails on the code.  The quick export sorts the visible layers by
    [zIndex] before it creates their images, but it paints each image
    when that image loads.  With the background at zIndex 0 and the
    overlay at zIndex 1, an overlay that loads first is painted first and
    the background is painted over it; only when the loads complete in
    zIndex order is the paint order ascending. *)
Theorem paint_order_is_completion_order :
  visible_sorted (TaskContext.layers two_layers) = [background; overlay]
  ∧ settles_all 2 [onload 1%nat; onload 0%nat]
  ∧ Run.promise
      (handleQuickExportPNG two_layers None [onload 1%nat; onload 0%nat])
    = Fulfilled
  ∧ Canvas.painted
      (Run.canvas
         (handleQuickExportPNG two_layers None [onload 1%nat; onload 0%nat]))
    = [overlay; background]
  ∧ Layer.zIndex <$>
      Canvas.painted
        (Run.canvas
           (handleQuickExportPNG two_layers None [onload 1%nat; onload 0%nat]))
    = [1; 0]
  ∧ Canvas.painted
      (Run.canvas
         (handleQuickExportPNG two_layers None [onload 0%nat; onload 1%nat]))
    = [background; overlay].
Proof.
  split_and!; try reflexivity. apply overlay_first_settles.
Qed.

(** C6 fails on the code.  The export dialog's compositor and the earlier
    task manager draw a loaded layer over the whole canvas: a 100 by 50
    layer on a 200 by 200 canvas is drawn 200 by 200 at the origin, where
    scaling by min(200/100, 200/50) = 2 and centring gives 200 by 100 at
    (0, 50), which is what the Tauri-aware quick export draws. *)
Theorem stretched_layer_not_fitted :
  Canvas.ops (Run.canvas (captureCanvas [banner] 200 200 None [onload 0%nat]))
  = [clearRect 0 0 200 200; drawImage banner 0 0 200 200]
  ∧ Canvas.ops
      (Run.canvas
         (WebTaskManager.handleQuickExportPNG square_canvas None [onload 0%nat]))
    = [clearRect 0 0 200 200; drawImage banner 0 0 200 200]
  ∧ Canvas.ops
      (Run.canvas (handleQuickExportPNG square_canvas None [onload 0%nat]))
    = [clearRect 0 0 200 200;
       drawImage banner (dx (fit 200 200 banner)) (dy (fit 200 200 banner))
         (dw (fit 200 200 banner)) (dh (fit 200 200 banner))]
  ∧ (Qmin (200 / 100) (200 / 50) == 2
     ∧ dw (fit 200 200 banner) == 200 ∧ dh (fit 200 200 banner) == 100
     ∧ dx (fit 200 200 banner) == 0 ∧ dy (fit 200 200 banner) == 50
     ∧ ¬ dh (stretch 200 200 banner) == dh (fit 200 200 banner)
     ∧ ¬ dy (stretch 200 200 banner) == dy (fit 200 200 banner))%Q.
Proof.
  split_and!; try reflexivity; try (vm_compute; discriminate).
Qed.

(** ** Save *)

(** Whatever the host and the context, a save that reaches the platform
    writes a project with no presets. *)
Lemma handleSave_presets_empty toISOString now host context filename saved :
  handleSave toISOString now host context filename = Some saved →
  ProjectFile.presets (saved_data saved) = [].
Proof.
  unfold handleSave, handleSaveAs. intros H.
  repeat (case_match; simplify_eq); done.
Qed.

(** C4 fails on the code.  The page holds one preset; the context it
    gives the task manager has no presets, and [handleSave] passes the
    literal empty array to [exportProject].  The downloaded project has
    the two layers and an empty [presets], where serializing the page's
    presets would have given one entry. *)
Theorem handleSave_omits_presets (toISOString : Z → string) (now : Z) :
  handleSave toISOString now web_host (taskContext editor_with_preset) None
  = Some (download "project.json"
            (ProjectFile.mk "1.0" (ProjectFile.mkCanvas 1920 1080)
               [ProjectLayer.mk "bg" "Background" "./assets/bg.png"
                  1920 1080 true 0;
                ProjectLayer.mk "fg" "Overlay" "./assets/fg.png"
                  1920 1080 true 1]
               []))
  ∧ Editor.presets editor_with_preset = [hide_overlay]
  ∧ exportPreset toISOString now <$> Editor.presets editor_with_preset
    = [LayerPreset.mk "preset-1" "No overlay"
         (Some (<["bg" := true]> (<["fg" := false]> ∅)))
         "2025-01-01T00:00:00.000Z"].
Proof. split_and!; reflexivity. Qed.

(** * Further properties *)

(** ** Page handlers *)

Lemma handleLayerToggleVisibility_ids (id : string) (prev : list Layer.t) :
  Layer.id <$> handleLayerToggleVisibility id prev = Layer.id <$> prev.
Proof.
  unfold handleLayerToggleVisibility. rewrite <- list_fmap_compose.
  apply list_fmap_ext. intros i layer _. simpl. by case_bool_decide.
Qed.

Lemma handleLayerToggleVisibility_zIndex (id : string) (prev : list Layer.t) :
  Layer.zIndex <$> handleLayerToggleVisibility id prev = Layer.zIndex <$> prev.
Proof.
  unfold handleLayerToggleVisibility. rewrite <- list_fmap_compose.
  apply list_fmap_ext. intros i layer _. simpl. by case_bool_decide.
Qed.

(** X1. Toggling the visibility of a layer id twice gives back the layer
    list: one toggle negates [isVisible] on the layers that carry the id,
    leaves every other layer as it is, and changes no id and no zIndex. *)
Theorem handleLayerToggleVisibility_twice (id : string) (prev : list Layer.t) :
  handleLayerToggleVisibility id (handleLayerToggleVisibility id prev) = prev
  ∧ (∀ i layer, prev !! i = Some layer →
       handleLayerToggleVisibility id prev !! i
       = Some (if bool_decide (Layer.id layer = id)
               then Layer.with_isVisible (negb (Layer.isVisible layer)) layer
               else layer))
  ∧ Layer.id <$> handleLayerToggleVisibility id prev = Layer.id <$> prev
  ∧ Layer.zIndex <$> handleLayerToggleVisibility id prev = Layer.zIndex <$> prev.
Proof.
  split_and!; unfold handleLayerToggleVisibility.
  - rewrite <- list_fmap_compose. rewrite <- (list_fmap_id prev) at 2.
    apply list_fmap_ext. intros i [lid n s f w h v z] _. simpl.
    destruct (decide (lid = id)) as [E|E].
    + rewrite (bool_decide_eq_true_2 _ E). unfold Layer.with_isVisible. simpl.
      rewrite (bool_decide_eq_true_2 _ E). simpl. by rewrite negb_involutive.
    + rewrite (bool_decide_eq_false_2 _ E). simpl.
      by rewrite (bool_decide_eq_false_2 _ E).
  - intros i layer Hi. by rewrite list_lookup_fmap, Hi.
  - apply handleLayerToggleVisibility_ids.
  - apply handleLayerToggleVisibility_zIndex.
Qed.

Lemma foldl_max_ge (start : Z) (l : list Z) :
  start <= foldl Z.max start l ∧ Forall (λ z, z <= foldl Z.max start l) l.
Proof.
  revert start. induction l as [|z l IH]; intros start; simpl.
  - split; [lia | constructor].
  - destruct (IH (Z.max start z)) as [H1 H2]. split; [lia|].
    constructor; [lia | done].
Qed.

Lemma maxZIndex_ge (layers : list Layer.t) :
  Forall (λ layer, Layer.zIndex layer <= maxZIndex layers) layers.
Proof.
  destruct layers as [|first rest]; [constructor|]. simpl.
  destruct (foldl_max_ge (Layer.zIndex first) (Layer.zIndex <$> rest)) as [H1 H2].
  constructor; [done|]. by rewrite Forall_fmap in H2.
Qed.

Section SortAppend.
Context {A : Type} (key : A → Z).
#[local] Abbreviation by_key := (λ a b : A, key a - key b).

Lemma sort_insert_snoc x l top :
  key x <= key top →
  sort_insert by_key x (l ++ [top]) = sort_insert by_key x l ++ [top].
Proof.
  intros Hx. induction l as [|y l IH]; simpl.
  - destruct (Z.leb_spec (key x - key top) 0); [done | lia].
  - destruct (key x - key y <=? 0); [done|]. by rewrite IH.
Qed.

Lemma sort_snoc l top :
  Forall (λ a, key a <= key top) l →
  sort by_key (l ++ [top]) = sort by_key l ++ [top].
Proof.
  induction 1 as [|x l Hx Hl IH]; simpl; [done|].
  by rewrite IH, sort_insert_snoc.
Qed.

Lemma sort_fmap {B : Type} (f : B → A) (key' : B → Z) l :
  (∀ b, key (f b) = key' b) →
  sort by_key (f <$> l) = f <$> sort (λ a b : B, key' a - key' b) l.
Proof.
  intros Hk. induction l as [|x l IH]; [done|].
  rewrite fmap_cons. cbn [sort]. rewrite IH.
  generalize (sort (λ a b : B, key' a - key' b) l) as s.
  induction s as [|y s IHs]; [done|].
  rewrite fmap_cons. cbn [sort_insert]. rewrite !Hk.
  destruct (key' x - key' y <=? 0); [done|].
  rewrite fmap_cons. by rewrite IHs.
Qed.
End SortAppend.

(** X2. When the zIndex of every layer is a safe integer, so that adding 1
    to the largest is exact, the layer that [handleAddLayer] creates is
    appended to the list, becomes the selection, has a zIndex above every
    layer already there and is therefore the last layer painted; the
    presets are untouched. *)
Theorem handleAddLayer_on_top (now : Z) (st : Editor.state) :
  Forall (λ layer, isSafeInteger (Layer.zIndex layer)) (Editor.layers st) →
  Editor.layers (handleAddLayer now st) = Editor.layers st ++ [newLayer now st]
  ∧ Editor.selectedLayerId (handleAddLayer now st)
    = Some ("layer-" +:+ pretty now)
  ∧ Forall (λ layer, Layer.zIndex layer < Layer.zIndex (newLayer now st))
      (Editor.layers st)
  ∧ visible_sorted (Editor.layers (handleAddLayer now st))
    = visible_sorted (Editor.layers st) ++ [newLayer now st]
  ∧ Editor.presets (handleAddLayer now st) = Editor.presets st.
Proof.
  intros _.
  assert (Hmax : Forall (λ layer, Layer.zIndex layer < Layer.zIndex (newLayer now st))
                   (Editor.layers st)).
  { eapply Forall_impl; [apply maxZIndex_ge|]. simpl. intros; lia. }
  split_and!; try done.
  simpl. unfold visible_sorted. rewrite filter_app.
  rewrite (filter_cons_True _ (newLayer now st)) by done.
  rewrite filter_nil. apply (sort_snoc Layer.zIndex).
  apply Forall_forall. intros layer Hin. apply list_elem_of_filter in Hin as [_ Hin].
  rewrite Forall_forall in Hmax. specialize (Hmax layer Hin). lia.
Qed.

Lemma handleAddLayer_on_top_witness :
  Forall (λ layer, isSafeInteger (Layer.zIndex layer))
    (Editor.layers editor_with_preset)
  ∧ Editor.layers (handleAddLayer 1 editor_with_preset)
    = [background; overlay; newLayer 1 editor_with_preset]
  ∧ Layer.zIndex (newLayer 1 editor_with_preset) = 2.
Proof.
  assert (H : Forall (λ layer, isSafeInteger (Layer.zIndex layer))
                (Editor.layers editor_with_preset)).
  { repeat constructor; by vm_compute. }
  split; [exact H|]. split; [|reflexivity].
  apply (handleAddLayer_on_top 1 editor_with_preset H).
Defined.

Lemma ascending_snoc keys top :
  ascending keys → Forall (λ k, k <= top) keys → ascending (keys ++ [top]).
Proof.
  induction keys as [|k keys IH]; simpl.
  - intros _ _. split; [constructor | done].
  - intros [Hk Hrest] Hall. apply Forall_cons in Hall as [Hk' Hall].
    split; [|by apply IH].
    apply Forall_app. split; [done|]. by constructor.
Qed.

Lemma ascending_filter {A} (key : A → Z) (P : A → Prop) `{∀ x, Decision (P x)} l :
  ascending (key <$> l) → ascending (key <$> filter P l).
Proof.
  induction l as [|x l IH]; simpl; [done|].
  intros [Hx Hl]. destruct (decide (P x)).
  - rewrite filter_cons_True by done. simpl. split; [|by apply IH].
    rewrite Forall_fmap in *. apply Forall_forall. intros y Hy.
    apply list_elem_of_filter in Hy as [_ Hy].
    rewrite Forall_forall in Hx. by apply Hx.
  - rewrite filter_cons_False by done. by apply IH.
Qed.

Lemma ascending_seq (i n : nat) : ascending (Z.of_nat <$> seq i n).
Proof.
  revert i. induction n as [|n IH]; intros i; simpl; [done|].
  split; [|apply IH].
  rewrite Forall_fmap. apply Forall_forall. intros j Hj.
  apply elem_of_seq in Hj. simpl. lia.
Qed.

Lemma renumber_zIndex (l : list Layer.t) :
  Layer.zIndex <$> imap (λ index layer, Layer.with_zIndex (Z.of_nat index) layer) l
  = Z.of_nat <$> seq 0 (length l).
Proof.
  rewrite fmap_imap. unfold compose. simpl.
  apply (imap_seq_0 l Z.of_nat).
Qed.

Lemma handleReorderLayers_ascending d t prev :
  ascending (Layer.zIndex <$> prev) →
  ascending (Layer.zIndex <$> handleReorderLayers d t prev).
Proof.
  intros Hasc. unfold handleReorderLayers.
  repeat case_match; try done.
  rewrite renumber_zIndex. apply ascending_seq.
Qed.

Lemma handleReorderLayers_ids d t prev :
  Layer.id <$> handleReorderLayers d t prev ≡ₚ Layer.id <$> prev.
Proof.
  unfold handleReorderLayers. repeat case_match; try done.
  rewrite renumber_ids. by rewrite move_Permutation.
Qed.

Lemma handleApplyPreset_ids m prev :
  Layer.id <$> handleApplyPreset m prev = Layer.id <$> prev.
Proof.
  unfold handleApplyPreset. rewrite <- list_fmap_compose.
  by apply list_fmap_ext.
Qed.

Lemma handleApplyPreset_zIndex m prev :
  Layer.zIndex <$> handleApplyPreset m prev = Layer.zIndex <$> prev.
Proof.
  unfold handleApplyPreset. rewrite <- list_fmap_compose.
  by apply list_fmap_ext.
Qed.

Lemma handleDeleteLayer_selection id st :
  selection_listed st → selection_listed (handleDeleteLayer id st).
Proof.
  unfold selection_listed, handleDeleteLayer. intros Hsel.
  destruct (length (Editor.layers st) <=? 1)%nat; [done|]. simpl.
  case_bool_decide as E.
  - destruct (filter _ (Editor.layers st)) as [|x r] eqn:Hf; simpl; [done|].
    apply elem_of_cons. by left.
  - destruct (Editor.selectedLayerId st) as [s|]; [|done].
    apply list_elem_of_fmap in Hsel as (layer & -> & Hin).
    apply list_elem_of_fmap. exists layer. split; [done|].
    apply list_elem_of_filter. split; [|done]. congruence.
Qed.

Lemma handleDeleteLayer_ascending id st :
  ascending (Layer.zIndex <$> Editor.layers st) →
  ascending (Layer.zIndex <$> Editor.layers (handleDeleteLayer id st)).
Proof.
  unfold handleDeleteLayer. intros Hasc.
  destruct (length (Editor.layers st) <=? 1)%nat; [done|]. simpl.
  by apply ascending_filter.
Qed.

Lemma reachable_inv (st : Page.state) :
  reachable st →
  selection_listed (Page.editor st)
  ∧ ascending (Layer.zIndex <$> Editor.layers (Page.editor st)).
Proof.
  induction 1 as [|a st Hreach [Hsel Hasc] Hoff]; [done|].
  destruct a; simpl in *.
  - split.
    + unfold selection_listed in *. simpl.
      by rewrite handleLayerToggleVisibility_ids.
    + by rewrite handleLayerToggleVisibility_zIndex.
  - done.
  - split.
    + unfold selection_listed. simpl. rewrite fmap_app. simpl.
      apply elem_of_app. right. apply elem_of_cons. by left.
    + rewrite fmap_app. apply ascending_snoc; [done|].
      rewrite Forall_fmap. eapply Forall_impl; [apply maxZIndex_ge|].
      simpl. intros; lia.
  - split; [by apply handleDeleteLayer_selection
           | by apply handleDeleteLayer_ascending].
  - split; [|by apply handleReorderLayers_ascending].
    unfold selection_listed in *. simpl.
    destruct (Editor.selectedLayerId (Page.editor st)); [|done].
    by rewrite handleReorderLayers_ids.
  - split.
    + unfold selection_listed in *. simpl. by rewrite handleApplyPreset_ids.
    + by rewrite handleApplyPreset_zIndex.
  - split; [|done]. unfold selection_listed. simpl.
    destruct newLayers as [|l ls]; simpl; [done|]. apply elem_of_cons. by left.
  - done.
Qed.

(** X3. In every state the page reaches from its initial state by the
    layer-panel handlers, a new project and the opening of a project whose
    layers come in ascending zIndex order, the selected layer id is the id
    of a layer in the list and the layers are stored in ascending zIndex
    order. *)
Theorem reachable_invariants (st : Page.state) :
  reachable st →
  selection_listed (Page.editor st)
  ∧ ascending (Layer.zIndex <$> Editor.layers (Page.editor st)).
Proof. apply reachable_inv. Qed.

Lemma reachable_sample_page : reachable sample_page.
Proof.
  unfold sample_page. repeat (apply reachable_step; [|done]).
  apply reachable_initial.
Qed.

Lemma reachable_invariants_witness :
  reachable sample_page
  ∧ selection_listed (Page.editor sample_page)
  ∧ ascending (Layer.zIndex <$> Editor.layers (Page.editor sample_page)).
Proof.
  split; [apply reachable_sample_page|].
  apply (reachable_invariants sample_page), reachable_sample_page.
Defined.

(** ** Zoom and pan *)

Lemma wheel_zoom_range (zoom factor : Q) :
  (0.1 <= Qmax 0.1 (Qmin 10 (zoom * factor)) <= 10)%Q.
Proof.
  split; [apply Q.le_max_l|].
  apply Q.max_lub; [by vm_compute | apply Q.le_min_l].
Qed.

(** X4. From a zoom between 0.1 and 10 a wheel step sets the zoom to 0.9
    times its value for a positive delta and to 1.1 times its value
    otherwise, clamped to the range from 0.1 to 10.  The model computes
    this exactly and the source with rounding, so the statement allows a
    difference of one part in a billion.  The new zoom is in the range, a
    positive delta never raises it and another delta never lowers it, and
    the layers are not touched. *)
Theorem handleWheel_zoom (deltaY centerX centerY : Q) (st : Page.state) :
  (0.1 <= Page.zoom st <= 10)%Q →
  let st' := CanvasView.handleWheel deltaY centerX centerY st in
  (0.1 <= Page.zoom st' <= 10
   ∧ (0 < deltaY →
        Qabs (Page.zoom st' - Qmax 0.1 (Qmin 10 (Page.zoom st * 0.9)))
        <= 1 / 1000000000
        ∧ Page.zoom st' <= Page.zoom st)
   ∧ (deltaY <= 0 →
        Qabs (Page.zoom st' - Qmax 0.1 (Qmin 10 (Page.zoom st * 1.1)))
        <= 1 / 1000000000
        ∧ Page.zoom st <= Page.zoom st'))%Q
  ∧ Page.editor st' = Page.editor st.
Proof.
  intros [Hlo Hhi] st'. subst st'. unfold CanvasView.handleWheel, handleZoomChange.
  cbn [Page.zoom Page.panX Page.panY Page.editor].
  assert (Hzero : ∀ x : Q, (Qabs (x - x) <= 1 / 1000000000)%Q).
  { intros x. assert (E : (x - x == 0)%Q) by ring. rewrite E. by vm_compute. }
  split; [|done]. split; [apply wheel_zoom_range|].
  generalize (Page.zoom st), Hlo, Hhi. intros zoom Hlo' Hhi'.
  destruct (Qlt_le_dec 0 deltaY) as [Hd|Hd]; split; intros Hdir;
    try (exfalso; lra); (split; [apply Hzero|]).
  - destruct (Q.min_spec 10 (zoom * 0.9)) as [[? Hmin]|[? Hmin]];
      destruct (Q.max_spec 0.1 (Qmin 10 (zoom * 0.9))) as [[? Hmax]|[? Hmax]];
      rewrite Hmax; rewrite ?Hmin in *; lra.
  - destruct (Q.min_spec 10 (zoom * 1.1)) as [[? Hmin]|[? Hmin]];
      destruct (Q.max_spec 0.1 (Qmin 10 (zoom * 1.1))) as [[? Hmax]|[? Hmax]];
      rewrite Hmax; rewrite ?Hmin in *; lra.
Qed.

Lemma handleWheel_zoom_witness :
  (0.1 <= Page.zoom initial_page <= 10)%Q
  ∧ (0.1 <= Page.zoom (CanvasView.handleWheel 100 400 300 initial_page) <= 10)%Q.
Proof.
  assert (H : (0.1 <= Page.zoom initial_page <= 10)%Q) by (by vm_compute).
  split; [exact H|].
  exact (proj1 (proj1 (handleWheel_zoom 100 400 300 initial_page H))).
Defined.

(** X5. From a zoom between 0.1 and 10 the zoom-in and zoom-out buttons
    stay in that range, zoom in never lowers and zoom out never raises
    the zoom, and neither moves the pan. *)
Theorem zoom_buttons_keep_range (st : Page.state) :
  (0.1 <= Page.zoom st <= 10)%Q →
  (0.1 <= Page.zoom (CanvasView.handleZoomIn st) <= 10
   ∧ 0.1 <= Page.zoom (CanvasView.handleZoomOut st) <= 10
   ∧ Page.zoom st <= Page.zoom (CanvasView.handleZoomIn st)
   ∧ Page.zoom (CanvasView.handleZoomOut st) <= Page.zoom st)%Q
  ∧ Page.panX (CanvasView.handleZoomIn st) = Page.panX st
  ∧ Page.panY (CanvasView.handleZoomIn st) = Page.panY st
  ∧ Page.panX (CanvasView.handleZoomOut st) = Page.panX st
  ∧ Page.panY (CanvasView.handleZoomOut st) = Page.panY st.
Proof.
  intros [Hlo Hhi]. unfold CanvasView.handleZoomIn, CanvasView.handleZoomOut,
    handleZoomChange. cbn [Page.zoom Page.panX Page.panY].
  assert (Hpos : (0 < Page.zoom st)%Q).
  { eapply Qlt_le_trans; [|exact Hlo]. by vm_compute. }
  assert (Hup : (Page.zoom st <= Page.zoom st * 1.2)%Q).
  { rewrite <- (Qmult_1_r (Page.zoom st)) at 1.
    apply Qmult_le_l; [done | by vm_compute]. }
  assert (Hdown : (Page.zoom st / 1.2 <= Page.zoom st)%Q).
  { apply Qle_shift_div_r; [by vm_compute|]. exact Hup. }
  split; [|done]. split_and!.
  - apply Q.min_glb; [|by vm_compute]. by eapply Qle_trans.
  - apply Q.le_min_r.
  - apply Q.le_max_r.
  - apply Q.max_lub; [|by eapply Qle_trans]. by eapply Qle_trans.
  - apply Q.min_glb; done.
  - apply Q.max_lub; done.
Qed.

Lemma zoom_buttons_keep_range_witness :
  (0.1 <= Page.zoom initial_page <= 10)%Q
  ∧ (Page.zoom initial_page <= Page.zoom (CanvasView.handleZoomIn initial_page))%Q.
Proof.
  assert (H : (0.1 <= Page.zoom initial_page <= 10)%Q) by (by vm_compute).
  split; [exact H|].
  apply (zoom_buttons_keep_range initial_page H).
Defined.

(** ** Presets *)

Lemma layerStates_of_snoc layers layer :
  layerStates_of (layers ++ [layer])
  = if bool_decide (Layer.id layer = "__proto__") then layerStates_of layers
    else <[Layer.id layer := Layer.isVisible layer]> (layerStates_of layers).
Proof. unfold layerStates_of. by rewrite foldl_app. Qed.

(** The snapshot has an entry for every layer but one whose id is
    "__proto__". *)
Lemma layerStates_of_lookup layers id :
  NoDup (Layer.id <$> layers) →
  ∀ v, layerStates_of layers !! id = Some v ↔
       id ≠ "__proto__"
       ∧ ∃ layer, layer ∈ layers ∧ Layer.id layer = id
                  ∧ Layer.isVisible layer = v.
Proof.
  induction layers as [|layer layers IH] using rev_ind; intros Hnd v.
  - unfold layerStates_of. simpl. rewrite lookup_empty. split; [done|].
    intros (_ & l & Hl & _). by apply not_elem_of_nil in Hl.
  - rewrite fmap_app in Hnd. apply NoDup_app in Hnd as (Hnd & Hdisj & _).
    rewrite layerStates_of_snoc.
    assert (Hlast : ∀ l, l ∈ layers ++ [layer] → Layer.id l = Layer.id layer →
                         l = layer).
    { intros l Hl Hid. apply elem_of_app in Hl as [Hl|Hl].
      - exfalso. apply (Hdisj (Layer.id l)).
        + apply list_elem_of_fmap. eauto.
        + rewrite Hid. simpl. apply elem_of_cons. by left.
      - apply elem_of_cons in Hl as [->|Hl]; [done|].
        by apply not_elem_of_nil in Hl. }
    assert (Hin : layer ∈ layers ++ [layer]).
    { apply elem_of_app. right. apply elem_of_cons. by left. }
    destruct (decide (Layer.id layer = id)) as [E|E].
    + case_bool_decide as Hproto.
      * split.
        -- rewrite (IH Hnd v). intros (_ & l & Hl & Hid & _).
           exfalso. apply (Hdisj id).
           ++ apply list_elem_of_fmap. eauto.
           ++ rewrite <- E. simpl. apply elem_of_cons. by left.
        -- intros (Hne & _). congruence.
      * rewrite E, lookup_insert_eq. split.
        -- intros [= <-]. split; [congruence|]. by exists layer.
        -- intros (_ & l & Hl & Hid & Hv).
           rewrite <- E in Hid. by rewrite <- (Hlast l Hl Hid), Hv.
    + assert (Hstep : layerStates_of layers !! id = Some v ↔
                (if bool_decide (Layer.id layer = "__proto__")
                 then layerStates_of layers
                 else <[Layer.id layer := Layer.isVisible layer]>
                        (layerStates_of layers)) !! id = Some v).
      { case_bool_decide; [done|]. by rewrite lookup_insert_ne. }
      rewrite <- Hstep, (IH Hnd v). split.
      * intros (Hne & l & Hl & Hid & Hv). split; [done|]. exists l.
        split_and!; [|done..]. apply elem_of_app. by left.
      * intros (Hne & l & Hl & Hid & Hv). split; [done|]. exists l.
        split_and!; [|done..].
        apply elem_of_app in Hl as [Hl|Hl]; [done|].
        apply elem_of_cons in Hl as [->|Hl]; [done|].
        by apply not_elem_of_nil in Hl.
Qed.

Lemma NoDup_fmap_filter {A B} (f : A → B) (P : A → Prop)
    `{∀ x, Decision (P x)} (l : list A) :
  NoDup (f <$> l) → NoDup (f <$> filter P l).
Proof.
  induction l as [|x l IH]; [done|].
  rewrite fmap_cons. intros Hnd. apply NoDup_cons in Hnd as [Hx Hnd].
  destruct (decide (P x)).
  - rewrite filter_cons_True by done. rewrite fmap_cons.
    apply NoDup_cons. split; [|by apply IH].
    intros Hin. apply Hx. apply list_elem_of_fmap in Hin as (y & -> & Hy).
    apply list_elem_of_filter in Hy as [_ Hy].
    apply list_elem_of_fmap. eauto.
  - rewrite filter_cons_False by done. by apply IH.
Qed.

Lemma layerStates_of_list_to_map layers :
  NoDup (Layer.id <$> layers) →
  layerStates_of layers
  = list_to_map
      (entry_of <$> filter (λ layer, Layer.id layer ≠ "__proto__") layers).
Proof.
  intros Hnd. apply map_eq. intros id. apply option_eq. intros v.
  rewrite (layerStates_of_lookup layers id Hnd v).
  rewrite <- elem_of_list_to_map.
  - rewrite list_elem_of_fmap. unfold entry_of. split.
    + intros (Hne & l & Hl & <- & <-). exists l. split; [done|].
      by apply list_elem_of_filter.
    + intros (l & [= -> ->] & Hl). apply list_elem_of_filter in Hl as [Hne Hl].
      eauto.
  - rewrite <- list_fmap_compose. by apply (NoDup_fmap_filter Layer.id).
Qed.

(** Applying the snapshot of a layer list to a list that differs from it
    in visibility only gives the list back, at the declared type and as
    the engine reads the snapshot. *)
Lemma snapshot_restores layers changed :
  NoDup (Layer.id <$> layers) →
  ("__proto__" ∉ Layer.id <$> layers) →
  Layer.with_isVisible true <$> changed = Layer.with_isVisible true <$> layers →
  handleApplyPreset (layerStates_of layers) changed = layers
  ∧ Js.handleApplyPreset (layerStates_of layers) changed = Js.of_layer <$> layers.
Proof.
  intros Hnd Hproto Hsame.
  assert (Hentry : ∀ i c l, changed !! i = Some c → layers !! i = Some l →
            layerStates_of layers !! Layer.id c = Some (Layer.isVisible l)
            ∧ Layer.with_isVisible (Layer.isVisible l) c = l).
  { intros i c l Hc Hl.
    apply (f_equal (λ k, k !! i)) in Hsame.
    rewrite !list_lookup_fmap, Hc, Hl in Hsame. simpl in Hsame.
    injection Hsame as Hid Hname Hsrc Hpath Hw Hh Hz.
    assert (Hin : l ∈ layers) by (by eapply list_elem_of_lookup_2).
    split.
    - apply (layerStates_of_lookup layers _ Hnd). split.
      + rewrite Hid. intros E. apply Hproto. apply list_elem_of_fmap. eauto.
      + exists l. by split_and!.
    - destruct c, l. unfold Layer.with_isVisible. simpl in *. congruence. }
  assert (Hlen : length changed = length layers).
  { apply (f_equal length) in Hsame. by rewrite !length_fmap in Hsame. }
  assert (Htyped : handleApplyPreset (layerStates_of layers) changed = layers).
  { unfold handleApplyPreset. apply list_eq. intros i.
    rewrite list_lookup_fmap.
    destruct (changed !! i) as [c|] eqn:Hc, (layers !! i) as [l|] eqn:Hl; simpl.
    - destruct (Hentry i c l Hc Hl) as [-> Hback]. simpl. by rewrite Hback.
    - apply lookup_lt_Some in Hc. apply lookup_ge_None in Hl. lia.
    - apply lookup_lt_Some in Hl. apply lookup_ge_None in Hc. lia.
    - done. }
  split; [exact Htyped|].
  rewrite Js_handleApplyPreset_plain; [by rewrite Htyped|].
  apply Forall_forall. intros c Hc. left.
  apply list_elem_of_lookup in Hc as [i Hc].
  destruct (layers !! i) as [l|] eqn:Hl.
  - destruct (Hentry i c l Hc Hl) as [-> _]. eauto.
  - apply lookup_lt_Some in Hc. apply lookup_ge_None in Hl. lia.
Qed.

(** X6. Saving a preset under a name that does not trim to nothing appends
    one preset with the trimmed name.  When the layer ids are distinct and
    none is "__proto__" (for which the snapshot gets no entry), applying
    that preset to any layer list that differs from the saved one in
    visibility only gives the saved list back, also as the engine reads
    the snapshot, and applying it to the saved list changes nothing. *)
Theorem savePreset_restores (trim : string → string) (toISOString : Z → string)
    (newPresetName : string) (now created : Z)
    (layers changed : list Layer.t) (presets : list Preset.t) :
  trim newPresetName ≠ "" →
  NoDup (Layer.id <$> layers) →
  ("__proto__" ∉ Layer.id <$> layers) →
  Layer.with_isVisible true <$> changed = Layer.with_isVisible true <$> layers →
  ∃ saved,
    PresetManager.savePreset trim toISOString newPresetName now created
      layers presets = presets ++ [saved]
    ∧ Preset.name saved = trim newPresetName
    ∧ PresetManager.applyPreset saved changed = layers
    ∧ Js.handleApplyPreset (default ∅ (PresetManager.states_of saved)) changed
      = Js.of_layer <$> layers
    ∧ PresetManager.applyPreset saved layers = layers.
Proof.
  intros Hname Hnd Hproto Hsame. unfold PresetManager.savePreset.
  rewrite bool_decide_eq_false_2 by done. eexists. split; [done|].
  split; [done|]. unfold PresetManager.applyPreset, PresetManager.states_of.
  simpl. split_and!; by apply snapshot_restores.
Qed.

Lemma two_layers_ids_NoDup : NoDup (Layer.id <$> TaskContext.layers two_layers).
Proof. apply (bool_decide_unpack _). by vm_compute. Qed.

Lemma savePreset_restores_witness :
  no_blanks "Both" ≠ ""
  ∧ ("__proto__" ∉ Layer.id <$> TaskContext.layers two_layers)
  ∧ ∃ saved,
      PresetManager.savePreset no_blanks fixed_clock "Both" 1 1
        (TaskContext.layers two_layers) [] = [] ++ [saved]
      ∧ PresetManager.applyPreset saved overlay_hidden
        = TaskContext.layers two_layers.
Proof.
  assert (Hname : no_blanks "Both" ≠ "") by done.
  assert (Hproto : "__proto__" ∉ Layer.id <$> TaskContext.layers two_layers).
  { apply (bool_decide_unpack _). by vm_compute. }
  split; [exact Hname|]. split; [exact Hproto|].
  destruct (savePreset_restores no_blanks fixed_clock "Both" 1 1
              (TaskContext.layers two_layers) overlay_hidden []
              Hname two_layers_ids_NoDup Hproto eq_refl)
    as (saved & Hsaved & _ & Happly & _).
  exists saved. by split.
Defined.

Lemma filter_length_Permutation {A} (P : A → Prop) `{∀ x, Decision (P x)} l1 l2 :
  l1 ≡ₚ l2 → length (filter P l1) = length (filter P l2).
Proof. intros Hp. by rewrite Hp. Qed.

(** X7. The summary shown for a preset just saved from a layer list with
    distinct ids reads "v/n visible", where n counts the layers whose id
    is not "__proto__" (for which the snapshot gets no entry) and v the
    visible ones among them. *)
Theorem getPresetSummary_counts (trim : string → string)
    (toISOString : Z → string) (newPresetName : string) (now created : Z)
    (layers : list Layer.t) (presets : list Preset.t) :
  trim newPresetName ≠ "" →
  NoDup (Layer.id <$> layers) →
  let counted := filter (λ layer, Layer.id layer ≠ "__proto__") layers in
  PresetManager.getPresetSummary <$>
    last (PresetManager.savePreset trim toISOString newPresetName now created
            layers presets)
  = Some (pretty (length (filter (λ layer, Layer.isVisible layer = true) counted))
          +:+ "/" +:+ pretty (length counted) +:+ " visible").
Proof.
  intros Hname Hnd counted. unfold PresetManager.savePreset.
  rewrite bool_decide_eq_false_2 by done. rewrite last_snoc. simpl.
  unfold PresetManager.getPresetSummary, PresetManager.states_of. simpl.
  assert (Hperm : map_to_list (layerStates_of layers) ≡ₚ entry_of <$> counted).
  { rewrite layerStates_of_list_to_map by done.
    apply map_to_list_to_map. rewrite <- list_fmap_compose.
    by apply (NoDup_fmap_filter Layer.id). }
  unfold PresetManager.visibleCount, PresetManager.totalCount.
  rewrite (filter_length_Permutation _ _ _ Hperm).
  rewrite Hperm, length_fmap.
  do 3 f_equal.
  generalize counted. clear. intros layers.
  induction layers as [|l layers IH]; [done|].
  rewrite fmap_cons. destruct (decide (Layer.isVisible l = true)) as [E|E].
  - rewrite (filter_cons_True _ l) by done.
    rewrite filter_cons_True by done. simpl. by rewrite IH.
  - rewrite (filter_cons_False _ l) by done.
    rewrite filter_cons_False by done. done.
Qed.

Lemma getPresetSummary_counts_witness :
  PresetManager.getPresetSummary <$>
    last (PresetManager.savePreset no_blanks fixed_clock "Both" 1 1
            overlay_hidden [])
  = Some "1/2 visible".
Proof.
  apply (getPresetSummary_counts no_blanks fixed_clock "Both" 1 1
           overlay_hidden []); [done|].
  apply (bool_decide_unpack _). by vm_compute.
Defined.

(** X8. Deleting the preset that was just saved gives back the preset list
    as it was, provided no older preset carries the new id.  A name that
    trims to nothing saves no preset. *)
Theorem savePreset_then_delete (trim : string → string)
    (toISOString : Z → string) (newPresetName : string) (now created : Z)
    (layers : list Layer.t) (presets : list Preset.t) :
  (trim newPresetName ≠ "" →
   Forall (λ p, Preset.id p ≠ "preset-" +:+ pretty now) presets →
   PresetManager.deletePreset ("preset-" +:+ pretty now)
     (PresetManager.savePreset trim toISOString newPresetName now created
        layers presets)
   = presets)
  ∧ (trim newPresetName = "" →
     PresetManager.savePreset trim toISOString newPresetName now created
       layers presets = presets).
Proof.
  split.
  - intros Hname Hfresh.
    unfold PresetManager.savePreset, PresetManager.deletePreset.
    rewrite bool_decide_eq_false_2 by done. rewrite filter_app.
    rewrite filter_cons_False by (simpl; intros H; by apply H).
    rewrite filter_nil, app_nil_r.
    induction Hfresh as [|p l Hp _ IH]; [done|].
    rewrite filter_cons_True by done. by rewrite IH.
  - intros Hblank. unfold PresetManager.savePreset.
    by rewrite bool_decide_eq_true_2.
Qed.

Lemma savePreset_then_delete_witness :
  PresetManager.deletePreset "preset-2"
    (PresetManager.savePreset no_blanks fixed_clock "Both" 2 2
       overlay_hidden [hide_overlay])
  = [hide_overlay]
  ∧ PresetManager.savePreset no_blanks fixed_clock "" 2 2
      overlay_hidden [hide_overlay]
    = [hide_overlay].
Proof.
  destruct (savePreset_then_delete no_blanks fixed_clock "Both" 2 2
              overlay_hidden [hide_overlay]) as [Hdelete _].
  destruct (savePreset_then_delete no_blanks fixed_clock "" 2 2
              overlay_hidden [hide_overlay]) as [_ Hblank].
  split.
  - apply Hdelete; [done|]. by repeat constructor.
  - by apply Hblank.
Defined.

(** ** Drag and drop reordering *)

Section Move.
Context {A : Type} (id : A → string).

Lemma splice_insert_delete i (x : A) l :
  (i ≤ length l)%nat → delete i (splice_insert i x l) = l.
Proof.
  intros Hi. unfold splice_insert. rewrite delete_take_drop.
  assert (Hlen : length (take i l) = i) by (rewrite length_take; lia).
  rewrite take_app_length' by done.
  change (x :: drop i l) with ([x] ++ drop i l).
  replace (S i) with (length (take i l ++ [x])) at 1
    by (rewrite length_app; simpl; lia).
  rewrite app_assoc, drop_app_length. apply take_drop.
Qed.

(** X9. Dropping a dragged entry on another entry of the preset list (or
    of the export queue): when both ids are in the list and differ, the
    dragged entry ends at the position the target had, the other entries
    keep their relative order, and the list is a permutation of the old
    one; with an empty or unknown dragged id, an unknown target or a drop
    on itself the list is unchanged. *)
Theorem handleDrop_moves (draggedId targetId : string) (prev : list A) :
  (draggedId ≠ "" → draggedId ≠ targetId →
   draggedId ∈ id <$> prev → targetId ∈ id <$> prev →
     ∃ draggedIndex targetIndex dragged,
       findIndex (λ x, bool_decide (id x = draggedId)) prev = Some draggedIndex
       ∧ findIndex (λ x, bool_decide (id x = targetId)) prev = Some targetIndex
       ∧ prev !! draggedIndex = Some dragged
       ∧ handleDrop id draggedId targetId prev !! targetIndex = Some dragged
       ∧ delete targetIndex (handleDrop id draggedId targetId prev)
         = delete draggedIndex prev
       ∧ handleDrop id draggedId targetId prev ≡ₚ prev)
  ∧ (draggedId = "" ∨ draggedId = targetId
     ∨ (draggedId ∉ id <$> prev) ∨ (targetId ∉ id <$> prev) →
     handleDrop id draggedId targetId prev = prev).
Proof.
  assert (Hfind : ∀ k, k ∈ id <$> prev ↔
            is_Some (findIndex (λ x, bool_decide (id x = k)) prev)).
  { intros k. split.
    - intros Hin. destruct (findIndex _ prev) eqn:E; [eauto|].
      apply findIndex_None in E.
      apply list_elem_of_fmap in Hin as (x & -> & Hx).
      rewrite Forall_forall in E. specialize (E x Hx).
      rewrite bool_decide_eq_true in E. done.
    - intros [i Hi]. apply findIndex_Some in Hi as (x & Hx & Hp & _).
      apply bool_decide_eq_true in Hp. subst k.
      apply list_elem_of_fmap. exists x. split; [done|].
      by eapply list_elem_of_lookup_2. }
  split.
  - intros Hne Hdiff Hd Ht.
    apply Hfind in Hd as [di Hdi]. apply Hfind in Ht as [ti Hti].
    pose proof Hdi as Hdi'. pose proof Hti as Hti'.
    apply findIndex_Some in Hdi' as (d & Hd & _).
    apply findIndex_Some in Hti' as (t & Ht & _).
    exists di, ti, d. unfold handleDrop, move_by_id.
    rewrite !bool_decide_eq_true_2 by done. simpl. rewrite Hdi, Hti, Hd.
    assert (Hle : (ti ≤ length (delete di prev))%nat).
    { rewrite length_delete by eauto.
      apply lookup_lt_Some in Ht. apply lookup_lt_Some in Hd. lia. }
    split_and!; try done.
    + by apply splice_insert_lookup.
    + by apply splice_insert_delete.
    + by apply move_Permutation.
  - intros Hno. unfold handleDrop, move_by_id.
    destruct (decide (draggedId = "")) as [->|Hne]; [done|].
    destruct (decide (draggedId = targetId)) as [->|Hdiff].
    { rewrite (bool_decide_eq_false_2 (targetId ≠ targetId)) by tauto.
      by rewrite andb_false_r. }
    rewrite !bool_decide_eq_true_2 by done. simpl.
    destruct (findIndex _ prev) as [di|] eqn:Hdi; [|done].
    destruct (findIndex (λ x, bool_decide (id x = targetId)) prev)
      as [ti|] eqn:Hti; [|done].
    exfalso. destruct Hno as [?|[?|[Hno|Hno]]]; try done;
      apply Hno, Hfind; eauto.
Qed.
End Move.

Lemma handleDrop_moves_witness :
  handleDrop Preset.id "C" "A" [presetA; presetB; presetC] !! 0%nat
  = Some presetC
  ∧ delete 0%nat (handleDrop Preset.id "C" "A" [presetA; presetB; presetC])
    = [presetA; presetB]
  ∧ handleDrop Preset.id "C" "C" [presetA; presetB; presetC]
    = [presetA; presetB; presetC].
Proof.
  destruct (handleDrop_moves Preset.id "C" "A" [presetA; presetB; presetC])
    as [Hmove _].
  destruct (handleDrop_moves Preset.id "C" "C" [presetA; presetB; presetC])
    as [_ Hsame].
  destruct Hmove as (di & ti & d & Hdi & Hti & Hd & Hat & Hrest & _).
  - done.
  - done.
  - apply (bool_decide_unpack _). by vm_compute.
  - apply (bool_decide_unpack _). by vm_compute.
  - injection Hdi as <-. injection Hti as <-. injection Hd as <-.
    split_and!; [exact Hat | exact Hrest | apply Hsame; by right; left].
Defined.

Lemma unnumbered_renumber (l : list Layer.t) :
  Layer.with_zIndex 0 <$>
    imap (λ index layer, Layer.with_zIndex (Z.of_nat index) layer) l
  = Layer.with_zIndex 0 <$> l.
Proof.
  rewrite fmap_imap. rewrite <- imap_const. by apply imap_ext.
Qed.

(** X10. Reordering layers changes nothing but the position of the dragged
    layer and the zIndex numbering: with the moved layer taken out, the
    new list and the old list hold the same layers in the same order up to
    zIndex, and the number of layers is unchanged. *)
Theorem handleReorderLayers_keeps_others (draggedId targetId : string)
    (prev : list Layer.t) :
  draggedId ∈ Layer.id <$> prev → targetId ∈ Layer.id <$> prev →
  ∃ draggedIndex targetIndex,
    findIndex (λ layer, bool_decide (Layer.id layer = draggedId)) prev
    = Some draggedIndex
    ∧ findIndex (λ layer, bool_decide (Layer.id layer = targetId)) prev
      = Some targetIndex
    ∧ Layer.with_zIndex 0 <$>
        delete targetIndex (handleReorderLayers draggedId targetId prev)
      = Layer.with_zIndex 0 <$> delete draggedIndex prev
    ∧ length (handleReorderLayers draggedId targetId prev) = length prev.
Proof.
  intros Hd Ht.
  apply findIndex_id_is_Some in Hd as [di Hdi].
  apply findIndex_id_is_Some in Ht as [ti Hti].
  pose proof Hdi as Hdi'. pose proof Hti as Hti'.
  apply findIndex_Some in Hdi' as (d & Hd & _).
  apply findIndex_Some in Hti' as (t & Ht & _).
  exists di, ti. unfold handleReorderLayers. rewrite Hdi, Hti, Hd.
  assert (Hle : (ti ≤ length (delete di prev))%nat).
  { rewrite length_delete by eauto.
    apply lookup_lt_Some in Ht. apply lookup_lt_Some in Hd. lia. }
  split_and!; try done.
  - rewrite list_fmap_delete, unnumbered_renumber, <- list_fmap_delete.
    by rewrite splice_insert_delete.
  - rewrite length_imap. rewrite (move_Permutation di ti d prev Hd). done.
Qed.

Lemma handleReorderLayers_keeps_others_witness :
  length (handleReorderLayers "fg" "bg" (TaskContext.layers two_layers))
  = length (TaskContext.layers two_layers).
Proof.
  destruct (handleReorderLayers_keeps_others "fg" "bg"
              (TaskContext.layers two_layers)) as (di & ti & _ & _ & _ & Hlen).
  - apply (bool_decide_unpack _). by vm_compute.
  - apply (bool_decide_unpack _). by vm_compute.
  - exact Hlen.
Defined.

(** What the filter of [captureCanvas] keeps: a layer whose entry is
    [true], or a layer without an entry whose id names something every
    object inherits. *)
Lemma Js_truthy_get (states : gmap string bool) (id : string) :
  Js.truthy (Js.get states id) = true ↔
  states !! id = Some true ∨ (states !! id = None ∧ id ∈ Js.Object_prototype).
Proof.
  unfold Js.get. destruct (states !! id) as [[]|]; simpl.
  - split; [by left | done].
  - split; [done | by intros [?|[? _]]].
  - case_bool_decide; simpl.
    + split; [by right | done].
    + split; [done | by intros [?|[_ ?]]].
Qed.

(** Where every layer has an entry or an id that names nothing inherited,
    the typed selection is the engine's. *)
Lemma Js_currentLayers_plain layers states :
  Forall (Js.plain states) layers →
  Js.currentLayers layers (Some states) = currentLayers layers (Some states).
Proof.
  intros Hplain. unfold Js.currentLayers, currentLayers. f_equal.
  induction Hplain as [|layer layers Hl _ IH]; [done|].
  assert (E : Js.truthy (Js.get states (Layer.id layer)) = true ↔
              states !! Layer.id layer = Some true).
  { rewrite (Js_get_plain _ _ Hl). by destruct (states !! Layer.id layer) as [[]|]. }
  destruct (decide (states !! Layer.id layer = Some true)) as [Ht|Hf].
  - rewrite (filter_cons_True _ layer) by (by apply E).
    rewrite filter_cons_True by done. by rewrite IH.
  - rewrite (filter_cons_False _ layer) by (by rewrite E).
    rewrite filter_cons_False by done. exact IH.
Qed.

(** X11. In every page state reached from the initial one by the page
    handlers, where a project is loaded only from layers that come in
    ascending zIndex order, the exports need no sorting: the visible
    layers in paint order are the visible layers in list order, and the
    layers the export dialog composites for given layer states are the
    layers its filter keeps, in list order. *)
Theorem reachable_paint_order (st : Page.state) :
  reachable st →
  visible_sorted (Editor.layers (Page.editor st))
  = filter (λ layer, Layer.isVisible layer = true)
      (Editor.layers (Page.editor st))
  ∧ ∀ states,
      Js.currentLayers (Editor.layers (Page.editor st)) (Some states)
      = filter (λ layer, Js.truthy (Js.get states (Layer.id layer)) = true)
          (Editor.layers (Page.editor st)).
Proof.
  intros Hr. destruct (reachable_inv st Hr) as [_ Hasc]. split.
  - apply (sort_of_ascending Layer.zIndex). by apply ascending_filter.
  - intros states. apply (sort_of_ascending Layer.zIndex).
    by apply ascending_filter.
Qed.

Lemma reachable_paint_order_witness :
  visible_sorted (Editor.layers (Page.editor sample_page))
  = filter (λ layer, Layer.isVisible layer = true)
      (Editor.layers (Page.editor sample_page)).
Proof.
  apply (reachable_paint_order sample_page). apply reachable_sample_page.
Defined.

(** ** Export dialog *)


Lemma painted_captured w h drawn :
  Canvas.painted (captured w h drawn) = drawn.
Proof.
  unfold captured. rewrite painted_canvas_after.
  by rewrite painted_call_clearRect.
Qed.

Lemma canvas_after_size prepare place w h drawn :
  (∀ c, Canvas.width (prepare c) = Canvas.width c
        ∧ Canvas.height (prepare c) = Canvas.height c) →
  Canvas.width (canvas_after prepare place w h drawn) = w
  ∧ Canvas.height (canvas_after prepare place w h drawn) = h.
Proof.
  intros Hprep. unfold canvas_after.
  induction drawn as [|layer drawn IH] using rev_ind.
  - simpl. destruct (Hprep (Canvas.mk w h [])) as [-> ->]. done.
  - rewrite foldl_app. simpl. exact IH.
Qed.

Lemma decoded_elem visibleLayers schedule layer :
  layer ∈ decoded visibleLayers schedule → layer ∈ visibleLayers.
Proof.
  unfold decoded. intros H. apply list_elem_of_omap in H as (e & _ & He).
  destruct e; [|done]. by eapply list_elem_of_lookup_2.
Qed.

Lemma currentLayers_elem layers layerStates layer :
  layer ∈ currentLayers layers layerStates ↔
  layer ∈ layers
  ∧ match layerStates with
    | Some states => states !! Layer.id layer = Some true
    | None => Layer.isVisible layer = true
    end.
Proof.
  unfold currentLayers, visible_sorted. destruct layerStates as [states|];
    rewrite sort_Permutation, list_elem_of_filter; tauto.
Qed.

Lemma Js_captureCanvas_joins layers w h layerStates schedule :
  settles_all (length (Js.currentLayers layers layerStates)) schedule →
  Run.promise (Js.captureCanvas layers w h layerStates schedule) = Fulfilled
  ∧ Run.outputs (Js.captureCanvas layers w h layerStates schedule)
    = [captured w h (decoded (Js.currentLayers layers layerStates) schedule)]
  ∧ ∀ k, (k < length schedule)%nat →
         Run.promise (Js.captureCanvas layers w h layerStates (take k schedule))
         = Pending.
Proof.
  intros Hs. unfold Js.captureCanvas.
  destruct (composite_joins (Canvas.call (clearRect 0 0 w h)) (stretch w h)
              (λ canvas : Canvas.t, canvas) w h
              (Js.currentLayers layers layerStates) schedule Hs)
    as (Hp & Ho & Hc & Hk).
  unfold captured. split_and!; [exact Hp | by rewrite Ho, Hc | exact Hk].
Qed.

Lemma Js_currentLayers_elem layers layerStates layer :
  layer ∈ Js.currentLayers layers layerStates ↔
  layer ∈ layers
  ∧ match layerStates with
    | Some states => Js.truthy (Js.get states (Layer.id layer)) = true
    | None => Layer.isVisible layer = true
    end.
Proof.
  unfold Js.currentLayers, visible_sorted. destruct layerStates as [states|];
    rewrite sort_Permutation, list_elem_of_filter; tauto.
Qed.

(** X12. Once every image of a capture has reported, loaded or failed,
    [captureCanvas] settles with one canvas of the requested size; the
    canvas shows the layers that loaded and nothing else.  With layer
    states, each of them is a layer of the page whose entry is [true] or
    that has no entry and an id naming something every object inherits;
    without layer states, each is a visible layer.  Before the last
    report the promise is pending. *)
Theorem captureCanvas_spec layers w h layerStates schedule :
  settles_all (length (Js.currentLayers layers layerStates)) schedule →
  Run.promise (Js.captureCanvas layers w h layerStates schedule) = Fulfilled
  ∧ Run.outputs (Js.captureCanvas layers w h layerStates schedule)
    = [captured w h (decoded (Js.currentLayers layers layerStates) schedule)]
  ∧ Canvas.painted
      (captured w h (decoded (Js.currentLayers layers layerStates) schedule))
    = decoded (Js.currentLayers layers layerStates) schedule
  ∧ Canvas.width
      (captured w h (decoded (Js.currentLayers layers layerStates) schedule))
    = w
  ∧ Canvas.height
      (captured w h (decoded (Js.currentLayers layers layerStates) schedule))
    = h
  ∧ (∀ layer, layer ∈ decoded (Js.currentLayers layers layerStates) schedule →
       layer ∈ layers
       ∧ match layerStates with
         | Some states =>
             states !! Layer.id layer = Some true
             ∨ (states !! Layer.id layer = None
                ∧ Layer.id layer ∈ Js.Object_prototype)
         | None => Layer.isVisible layer = true
         end)
  ∧ (∀ k, (k < length schedule)%nat →
       Run.promise (Js.captureCanvas layers w h layerStates (take k schedule))
       = Pending).
Proof.
  intros Hs. destruct (Js_captureCanvas_joins layers w h layerStates schedule Hs)
    as (Hp & Ho & Hk).
  destruct (canvas_after_size (Canvas.call (clearRect 0 0 w h)) (stretch w h) w h
              (decoded (Js.currentLayers layers layerStates) schedule))
    as [Hw Hh]; [done|].
  split_and!; try done.
  - apply painted_captured.
  - intros layer Hin. apply decoded_elem, Js_currentLayers_elem in Hin as [Hl Hsel].
    split; [done|]. destruct layerStates; [|done]. by apply Js_truthy_get.
Qed.

Lemma captureCanvas_spec_witness :
  settles_all
    (length (Js.currentLayers (TaskContext.layers two_layers)
               (LayerPreset.layer_states stored_hide_overlay)))
    [onload 0%nat]
  ∧ Run.promise
      (Js.captureCanvas (TaskContext.layers two_layers) 1920 1080
         (LayerPreset.layer_states stored_hide_overlay) [onload 0%nat])
    = Fulfilled.
Proof.
  assert (H : settles_all
                (length (Js.currentLayers (TaskContext.layers two_layers)
                           (LayerPreset.layer_states stored_hide_overlay)))
                [onload 0%nat]) by (by vm_compute).
  split; [exact H|].
  apply (captureCanvas_spec (TaskContext.layers two_layers) 1920 1080
           (LayerPreset.layer_states stored_hide_overlay) [onload 0%nat] H).
Defined.

(** X13. The layers the export dialog composites for a preset are the
    layers the page shows after that preset is applied, in the same order
    (compared up to the visibility flag, which the page sets and the
    dialog leaves), provided the preset has an entry for every layer that
    is currently visible. *)
Theorem currentLayers_applied layers states :
  (∀ layer, layer ∈ layers →
     is_Some (states !! Layer.id layer) ∨ Layer.isVisible layer = false) →
  Layer.with_isVisible true <$> currentLayers layers (Some states)
  = visible_sorted (handleApplyPreset states layers).
Proof.
  intros Hcover. unfold currentLayers, visible_sorted.
  rewrite <- (sort_fmap Layer.zIndex (Layer.with_isVisible true) Layer.zIndex)
    by done.
  f_equal. unfold handleApplyPreset.
  induction layers as [|l layers IH]; [done|].
  rewrite fmap_cons.
  assert (Hl := Hcover l ltac:(apply elem_of_cons; by left)).
  assert (IH' := IH ltac:(intros; apply Hcover; apply elem_of_cons; by right)).
  clear IH Hcover.
  destruct (states !! Layer.id l) as [[]|] eqn:E.
  - rewrite filter_cons_True by done.
    rewrite filter_cons_True by (simpl; rewrite ?E; done).
    rewrite fmap_cons, IH'. by rewrite ?E.
  - rewrite filter_cons_False by (rewrite ?E; done).
    rewrite filter_cons_False by (simpl; rewrite ?E; done). exact IH'.
  - destruct Hl as [[? ?]|Hl]; [done|].
    rewrite filter_cons_False by (rewrite ?E; done).
    rewrite filter_cons_False by (simpl; rewrite ?E; simpl; congruence).
    exact IH'.
Qed.

Lemma currentLayers_applied_witness :
  Layer.with_isVisible true <$>
    currentLayers (TaskContext.layers two_layers)
      (Some (<["bg" := true]> (<["fg" := false]> ∅)))
  = visible_sorted
      (handleApplyPreset (<["bg" := true]> (<["fg" := false]> ∅))
         (TaskContext.layers two_layers)).
Proof.
  apply (currentLayers_applied (TaskContext.layers two_layers)
           (<["bg" := true]> (<["fg" := false]> ∅))).
  intros layer Hin. left.
  apply elem_of_cons in Hin as [->|Hin]; [eexists; by vm_compute|].
  apply elem_of_cons in Hin as [->|Hin]; [eexists; by vm_compute|].
  by apply not_elem_of_nil in Hin.
Defined.

Lemma captureCanvas_waits layers w h layerStates schedule k :
  settles_all (length (currentLayers layers layerStates)) schedule →
  (k < length schedule)%nat →
  Run.outputs (captureCanvas layers w h layerStates (take k schedule)) = [].
Proof.
  intros Hs Hk.
  assert (E : ∀ evs, captureCanvas layers w h layerStates evs
                     = composite (Canvas.call (clearRect 0 0 w h)) (stretch w h)
                         (λ canvas, canvas) w h
                         (currentLayers layers layerStates) evs).
  { intros evs. unfold captureCanvas, currentLayers. by destruct layerStates. }
  rewrite E.
  pose proof (settles_all_length _ _ Hs) as Hlen.
  pose proof (settles_all_in_range _ _ Hs) as Hrange.
  destruct (composite_progress (Canvas.call (clearRect 0 0 w h)) (stretch w h)
              (λ canvas : Canvas.t, canvas) w h
              (currentLayers layers layerStates) (take k schedule))
    as (_ & _ & Hpend & _).
  - lia.
  - by apply Forall_take.
  - rewrite length_take. lia.
  - apply Hpend. rewrite length_take. lia.
Qed.






(** X15. While the images of an item's capture have not all reported, the
    bulk export stays on that item: the dialog shows it as exporting
    under the item's name, the item's layer states have been handed to
    the page, and nothing has been downloaded. *)
Theorem exportBulk_blocks exportItems layers w h item rest schedule k run :
  filter (λ item, ExportItem.enabled item = true) exportItems = item :: rest →
  settles_all
    (length (currentLayers layers (LayerPreset.layer_states (ExportItem.preset item))))
    schedule →
  (k < length schedule)%nat →
  ExportManager.exportBulk exportItems layers w h [take k schedule] run
  = ExportManager.mkBulk true 0 (ExportItem.name item)
      (ExportManager.applied run
       ++ [LayerPreset.layer_states (ExportItem.preset item)])
      (ExportManager.downloads run).
Proof.
  intros E Hs Hk. unfold ExportManager.exportBulk. rewrite E.
  cbn [length Nat.eqb ExportManager.exportBulk_from hd].
  by rewrite (captureCanvas_waits _ _ _ _ _ _ Hs Hk).
Qed.

Lemma exportBulk_blocks_witness :
  ExportManager.isExporting
    (ExportManager.exportBulk queue (TaskContext.layers two_layers)
       1920 1080 [take 0 [onload 0%nat]] ExportManager.idle)
  = true.
Proof.
  rewrite (exportBulk_blocks queue (TaskContext.layers two_layers) 1920 1080
             (ExportItem.mk "export-preset-1" "No overlay" stored_hide_overlay
                jpg 80 true) [] [onload 0%nat] 0 ExportManager.idle).
  - done.
  - done.
  - by vm_compute.
  - simpl. lia.
Defined.

(** X16. After "deselect all" a bulk export does nothing, whatever is in
    the queue; after "select all" every item of the queue is exported. *)
Theorem exportBulk_none_enabled exportItems layers w h schedules run :
  ExportManager.exportBulk
    (ExportManager.toggleAllExportItems false exportItems)
    layers w h schedules run = run
  ∧ filter (λ item, ExportItem.enabled item = true)
      (ExportManager.toggleAllExportItems true exportItems)
    = ExportManager.toggleAllExportItems true exportItems.
Proof.
  split.
  - unfold ExportManager.exportBulk, ExportManager.toggleAllExportItems.
    replace (filter _ _) with (@nil ExportItem.t); [done|].
    symmetry. induction exportItems as [|x l IH]; [done|].
    rewrite fmap_cons, filter_cons_False by (simpl; congruence). done.
  - unfold ExportManager.toggleAllExportItems.
    induction exportItems as [|x l IH]; [done|].
    rewrite fmap_cons, filter_cons_True by done. by rewrite IH.
Qed.





(** ** Quick export *)







(** ** Saving and opening *)

(** X20. Whatever the host, a save or a save-as that reaches the platform
    writes a project of version "1.0" with the context's canvas size, the
    context's layers in on-disk form and no presets. *)
Theorem save_writes_context (toISOString : Z → string) (now : Z)
    (host : Host.t) (context : TaskContext.t) (filename : option string)
    (saved : Saved) :
  handleSave toISOString now host context filename = Some saved
  ∨ handleSaveAs toISOString now host context filename = Some saved →
  saved_data saved
  = ProjectFile.mk "1.0"
      (ProjectFile.mkCanvas (TaskContext.canvasWidth context)
         (TaskContext.canvasHeight context))
      (convertRuntimeLayersToProjectLayers (TaskContext.layers context))
      [].
Proof.
  unfold handleSave, handleSaveAs. intros [H|H];
    repeat (case_match; simplify_eq); done.
Qed.

Lemma save_writes_context_witness :
  ∃ saved,
    handleSave fixed_clock 1 web_host two_layers None = Some saved
    ∧ ProjectFile.presets (saved_data saved) = [].
Proof.
  eexists. split; [reflexivity|].
  rewrite (save_writes_context fixed_clock 1 web_host two_layers None _
             (or_introl eq_refl)).
  reflexivity.
Defined.

(** X21. The Tauri open path keeps the stored layers: written back in
    on-disk form, the layers it builds are the stored layers sorted by
    z_index, none is dropped whether or not its asset resolves, and they
    come in ascending zIndex order. *)
Theorem loadLayersWithAssets_keeps_layers
    (assetUrl : string → string → option string)
    (encodeURIComponent : string → string)
    (projectLayers : list ProjectLayer.t) (projectDir : string) :
  convertRuntimeLayersToProjectLayers
    (loadLayersWithAssets assetUrl encodeURIComponent projectLayers projectDir)
  = sort by_z_index projectLayers
  ∧ length (loadLayersWithAssets assetUrl encodeURIComponent projectLayers projectDir)
    = length projectLayers
  ∧ ascending
      (Layer.zIndex <$>
         loadLayersWithAssets assetUrl encodeURIComponent projectLayers projectDir).
Proof.
  unfold loadLayersWithAssets.
  assert (E : sort by_zIndex
                (layerWithAsset assetUrl encodeURIComponent projectDir
                   <$> projectLayers)
              = layerWithAsset assetUrl encodeURIComponent projectDir
                  <$> sort by_z_index projectLayers).
  { apply (sort_fmap Layer.zIndex _ ProjectLayer.z_index). done. }
  split_and!.
  - rewrite E. unfold convertRuntimeLayersToProjectLayers.
    rewrite <- list_fmap_compose.
    rewrite <- (list_fmap_id (sort by_z_index projectLayers)) at 2.
    apply list_fmap_ext. intros i [] _. done.
  - by rewrite length_sort, length_fmap.
  - apply (sort_ascending Layer.zIndex).
Qed.

(** What the callback of the converter makes of each stored layer, when
    it throws for none. *)
Lemma converter_output conv (stored : list StoredLayer.t) dir layers :
  mapM (λ layer : option Layer.t, layer) (imap (toRuntimeLayer conv dir) stored)
  = Some layers →
  length layers = length stored
  ∧ ∀ i layer, layers !! i = Some layer →
      ∃ s, stored !! i = Some s
           ∧ Layer.zIndex layer = default (Z.of_nat i) (StoredLayer.z_index s)
           ∧ Layer.isVisible layer = default true (StoredLayer.is_visible s).
Proof.
  intros Hm. apply mapM_Some in Hm.
  split.
  - apply Forall2_length in Hm. by rewrite length_imap in Hm.
  - intros i layer Hi.
    destruct (Forall2_lookup_r _ _ _ _ _ Hm Hi) as (o & Ho & ->).
    rewrite list_lookup_imap in Ho.
    destruct (stored !! i) as [s|]; [|done]. simpl in Ho. exists s.
    split; [done|]. injection Ho as Ho. unfold toRuntimeLayer in Ho.
    destruct (conv _ _ _ _); [|done]. simpl in Ho. by injection Ho as <-.
Qed.

(** X22. When every stored layer carries a [z_index] and the web converter
    returns (it throws when building a source throws), it hands the page
    as many layers as the file stores, in ascending zIndex order, which is
    what the page takes as a loaded project; the Tauri open path hands
    over layers in ascending zIndex order whatever the assets. *)
Theorem open_hands_over_sorted_layers
    (conv : string → Z → Z → option string → option string)
    (assetUrl : string → string → option string)
    (encodeURIComponent : string → string)
    (L : list ProjectLayer.t) (dir : option string) (projectDir : string)
    (presets : list Preset.t) (w h : Z) (fileName : option string)
    (st : Page.state) (layers : list Layer.t) :
  (convertProjectLayersToRuntimeLayers conv (StoredLayer.of_project <$> L) dir).2
  = Some layers →
  offered (LoadProject layers presets w h fileName) st
  ∧ length layers = length L
  ∧ offered (LoadProject
               (loadLayersWithAssets assetUrl encodeURIComponent L projectDir)
               presets w h fileName) st.
Proof.
  unfold convertProjectLayersToRuntimeLayers. simpl.
  rewrite (sort_fmap_cmp StoredLayer.of_project by_z_index) by done.
  intros Hm. destruct (converter_output _ _ _ _ Hm) as [Hlen Hat].
  rewrite length_fmap, length_sort in Hlen.
  unfold offered. split_and!; [|done|apply (sort_ascending Layer.zIndex)].
  replace (Layer.zIndex <$> layers)
    with (ProjectLayer.z_index <$> sort by_z_index L);
    [apply (sort_ascending ProjectLayer.z_index)|].
  apply list_eq. intros i. rewrite !list_lookup_fmap.
  destruct (layers !! i) as [layer|] eqn:Hi.
  - destruct (Hat i layer Hi) as (s & Hs & Hz & _).
    rewrite list_lookup_fmap in Hs.
    destruct (sort by_z_index L !! i) as [p|]; [|done].
    simpl in *. injection Hs as <-. by rewrite Hz.
  - apply lookup_ge_None in Hi. rewrite Hlen, <- (length_sort by_z_index) in Hi.
    apply lookup_ge_None in Hi. by rewrite Hi.
Qed.

Lemma open_hands_over_sorted_layers_witness :
  (convertProjectLayersToRuntimeLayers identity_resolver
     (StoredLayer.of_project <$> unsorted_file) None).2
  = Some
      [Layer.mk "bg" "Background" "./assets/bg.png" "./assets/bg.png"
         1920 1080 true 0;
       Layer.mk "fg" "Overlay" "./assets/fg.png" "./assets/fg.png"
         1920 1080 true 1]
  ∧ length
      [Layer.mk "bg" "Background" "./assets/bg.png" "./assets/bg.png"
         1920 1080 true 0;
       Layer.mk "fg" "Overlay" "./assets/fg.png" "./assets/fg.png"
         1920 1080 true 1]
    = length unsorted_file.
Proof.
  assert (H : (convertProjectLayersToRuntimeLayers identity_resolver
                 (StoredLayer.of_project <$> unsorted_file) None).2
              = Some
                  [Layer.mk "bg" "Background" "./assets/bg.png"
                     "./assets/bg.png" 1920 1080 true 0;
                   Layer.mk "fg" "Overlay" "./assets/fg.png"
                     "./assets/fg.png" 1920 1080 true 1]) by reflexivity.
  split; [exact H|].
  apply (open_hands_over_sorted_layers identity_resolver (λ _ _, None)
           (λ name, name) unsorted_file None "" [] 1920 1080 None initial_page
           _ H).
Defined.

Lemma mapM_fmap_compose {A B C : Type} (f : B → option C) (g : A → B)
    (l : list A) :
  mapM f (g <$> l) = mapM (f ∘ g) l.
Proof.
  induction l as [|x l IH]; [done|].
  rewrite fmap_cons. cbn [mapM]. by rewrite IH.
Qed.

(** X23. Saving and opening again: layers of non-empty id, name and file
    path and of positive size, stored in ascending zIndex order, come back
    from the on-disk form with every field as it was except [src], which
    is resolved again from the file path; when resolving the source of
    one of them throws, so does the conversion. *)
Theorem runtime_round_trip
    (conv : string → Z → Z → option string → option string)
    (layers : list Layer.t) (dir : option string) :
  Forall valid_runtime_layer layers →
  ascending (Layer.zIndex <$> layers) →
  (convertProjectLayersToRuntimeLayers conv
     (StoredLayer.of_project <$> convertRuntimeLayersToProjectLayers layers)
     dir).2
  = mapM (λ layer,
            src ← conv (Layer.file_path layer) (Layer.width layer)
                    (Layer.height layer) dir;
            Some (Layer.mk (Layer.id layer) (Layer.name layer) src
                    (Layer.file_path layer) (Layer.width layer)
                    (Layer.height layer) (Layer.isVisible layer)
                    (Layer.zIndex layer)))
      layers.
Proof.
  intros Hv Hasc. rewrite convert_valid.
  2:{ unfold convertRuntimeLayersToProjectLayers. rewrite Forall_fmap.
      eapply Forall_impl; [exact Hv|]. by intros layer. }
  simpl. rewrite (sort_of_ascending ProjectLayer.z_index).
  2:{ unfold convertRuntimeLayersToProjectLayers.
      rewrite <- list_fmap_compose. exact Hasc. }
  unfold convertRuntimeLayersToProjectLayers. by rewrite mapM_fmap_compose.
Qed.

Lemma runtime_round_trip_witness :
  (convertProjectLayersToRuntimeLayers identity_resolver
     (StoredLayer.of_project
      <$> convertRuntimeLayersToProjectLayers (TaskContext.layers two_layers))
     None).2
  = Some
      [Layer.mk "bg" "Background" "./assets/bg.png" "./assets/bg.png"
         1920 1080 true 0;
       Layer.mk "fg" "Overlay" "./assets/fg.png" "./assets/fg.png"
         1920 1080 true 1].
Proof.
  rewrite (runtime_round_trip identity_resolver (TaskContext.layers two_layers)
             None).
  - reflexivity.
  - repeat constructor; done.
  - repeat constructor; by vm_compute.
Defined.

Lemma Qle_bool_spec (a b : Q) :
  BoolSpec (a <= b)%Q (b < a)%Q (Qle_bool a b).
Proof.
  destruct (Qle_bool a b) eqn:E; constructor.
  - by apply Qle_bool_iff.
  - apply Qnot_le_lt. rewrite <- Qle_bool_iff. congruence.
Qed.

Ltac q_contradiction :=
  repeat match goal with
         | H : _ ∧ _ |- _ => destruct H
         | H : _ ∨ _ |- _ => destruct H
         end;
  match goal with
  | H1 : (?a <= ?b)%Q, H2 : (?b < ?a)%Q |- _ => exact (Qlt_not_le _ _ H2 H1)
  end.

Lemma project_doc_outcome version width height layers presets :
  version ≠ "" →
  loadProjectFile (Text (Some (project_doc version width height layers presets)))
  = if Qle_bool width 0 || Qle_bool height 0
    then RejectedParse (Error "Canvas dimensions must be positive")
    else if negb (Qle_bool width 50000) || negb (Qle_bool height 50000)
    then RejectedParse (Error "Canvas dimensions are too large (max 50000px)")
    else Resolved (project_doc version width height layers presets).
Proof.
  intros Hv. simpl. unfold validate. simpl.
  rewrite bool_decide_eq_false_2 by done. simpl.
  destruct (Qle_bool width 0 || Qle_bool height 0); [done|]. simpl.
  by destruct (negb (Qle_bool width 50000) || negb (Qle_bool height 50000)).
Qed.

(** X24. For a project document with a non-empty version, a canvas of
    numeric width and height, a layers array and a presets array, the
    loader accepts the document exactly when both dimensions are above 0
    and at most 50000, rejects it as "must be positive" exactly when one
    is 0 or less, and as "too large" exactly when both are positive and
    one exceeds 50000. *)
Theorem validation_by_canvas_range (version : string) (width height : Q)
    (layers presets : list json) :
  version ≠ "" →
  (loadProjectFile (Text (Some (project_doc version width height layers presets)))
   = Resolved (project_doc version width height layers presets)
   ↔ (0 < width ∧ width <= 50000 ∧ 0 < height ∧ height <= 50000)%Q)
  ∧ (loadProjectFile (Text (Some (project_doc version width height layers presets)))
     = RejectedParse (Error "Canvas dimensions must be positive")
     ↔ (width <= 0 ∨ height <= 0)%Q)
  ∧ (loadProjectFile (Text (Some (project_doc version width height layers presets)))
     = RejectedParse (Error "Canvas dimensions are too large (max 50000px)")
     ↔ (0 < width ∧ 0 < height ∧ (50000 < width ∨ 50000 < height))%Q).
Proof.
  intros Hv. rewrite (project_doc_outcome _ _ _ _ _ Hv).
  destruct (Qle_bool_spec width 0) as [Hw0|Hw0];
    destruct (Qle_bool_spec height 0) as [Hh0|Hh0];
    destruct (Qle_bool_spec width 50000) as [Hw5|Hw5];
    destruct (Qle_bool_spec height 50000) as [Hh5|Hh5]; simpl;
    (split_and!; split; intros Hyp; try discriminate; try done; try tauto;
     exfalso; q_contradiction).
Qed.

Lemma validation_by_canvas_range_witness :
  loadProjectFile (Text (Some (project_doc "1.0" 1920 1080 [] [])))
  = Resolved (project_doc "1.0" 1920 1080 [] []).
Proof.
  destruct (validation_by_canvas_range "1.0" 1920 1080 [] []) as [[_ H] _];
    [done|].
  apply H. by vm_compute.
Defined.

(** ** Image sources *)

Lemma includes_slash_after dir file : includes "/" (dir +:+ "/" +:+ file) = true.
Proof.
  induction dir as [|c dir IH].
  - by destruct file.
  - change (String c dir +:+ "/" +:+ file) with (String c (dir +:+ "/" +:+ file)).
    cbn [includes]. rewrite IH. by rewrite orb_true_r.
Qed.

Lemma last_segment_of_path dir file :
  includes "/" file = false → last_segment (dir +:+ "/" +:+ file) = file.
Proof.
  intros Hfile. induction dir as [|c dir IH].
  - change ("" +:+ "/" +:+ file) with ("/" +:+ file).
    change ("/" +:+ file) with (String (Ascii.ascii_of_nat 47) file).
    cbn [last_segment]. rewrite Hfile. reflexivity.
  - change (String c dir +:+ "/" +:+ file) with (String c (dir +:+ "/" +:+ file)).
    cbn [last_segment]. by rewrite includes_slash_after.
Qed.

Lemma path_not_empty dir file : dir +:+ "/" +:+ file ≠ "".
Proof. by destruct dir. Qed.

(** X25. In the browser the image source of a stored layer depends on the
    last segment of its path only: a path under an "assets/" folder that
    ends in a non-empty file name resolves to "/project-assets/" followed
    by that name, so two layers whose files share a name in different
    folders get the same source, whatever their sizes. *)
Theorem web_source_is_file_name (createPlaceholder : string → Z → Z → string)
    (dir1 dir2 file : string) (w1 h1 w2 h2 : Z) (pd1 pd2 : option string) :
  file ≠ "" → includes "/" file = false →
  includes "assets/" (dir1 +:+ "/" +:+ file) = true →
  includes "assets/" (dir2 +:+ "/" +:+ file) = true →
  convertFilePathToSrc createPlaceholder false (dir1 +:+ "/" +:+ file) w1 h1 pd1
  = "/project-assets/" +:+ file
  ∧ convertFilePathToSrc createPlaceholder false (dir2 +:+ "/" +:+ file) w2 h2 pd2
    = convertFilePathToSrc createPlaceholder false (dir1 +:+ "/" +:+ file) w1 h1 pd1.
Proof.
  intros Hfile Hslash H1 H2.
  assert (E : ∀ dir w h pd, includes "assets/" (dir +:+ "/" +:+ file) = true →
            convertFilePathToSrc createPlaceholder false (dir +:+ "/" +:+ file) w h pd
            = "/project-assets/" +:+ file).
  { intros dir w h pd Hin. unfold convertFilePathToSrc.
    cbn [andb]. rewrite Hin.
    rewrite (bool_decide_eq_false_2 _ (path_not_empty dir file)). cbn [negb andb].
    rewrite (last_segment_of_path dir file Hslash).
    by rewrite (bool_decide_eq_false_2 _ Hfile). }
  by rewrite !E.
Qed.

Lemma web_source_is_file_name_witness :
  convertFilePathToSrc (λ text _ _, text) false "./assets/faces/smile.png"
    1920 1080 None
  = "/project-assets/smile.png"
  ∧ convertFilePathToSrc (λ text _ _, text) false "./assets/hands/smile.png"
      800 600 None
    = convertFilePathToSrc (λ text _ _, text) false "./assets/faces/smile.png"
        1920 1080 None.
Proof.
  apply (web_source_is_file_name (λ text _ _, text) "./assets/faces"
           "./assets/hands" "smile.png" 1920 1080 800 600 None None);
    [discriminate | reflexivity | reflexivity | reflexivity].
Defined.
